(** * StayLink backend: account service, schema adapter, access middleware
      and booking-access verifier, embedded and verified.

    The development follows the JavaScript sources:
    - the schema-adaptive auth controller ([getUserIdColumn], [getNameExpr],
      [getCreatedAtExpr], [register], [login], [getMe], [updateProfile]);
    - [middleware/authMiddleware.js] ([verifyToken]);
    - [server.js] (the [/api/room/verify-access] route and the users table
      declared by [ensureSchema]).

    Handlers are programs of a small free monad whose nodes are the calls
    the code makes to its collaborators (connection pool, SQL client,
    bcrypt, crypto, jsonwebtoken, the module-level column cache).  The
    programs are run against a model of the PostgreSQL store. *)

From Stdlib Require Import String Ascii List ZArith Bool Lia DecimalString.
Import ListNotations.
Local Open Scope string_scope.
Local Open Scope list_scope.
Set Warnings "-register-all".

(* ================================================================== *)
(** ** JavaScript values and the string primitives the code relies on *)
(* ================================================================== *)

Module JS.

(** A JavaScript string is modelled by a [string] holding one character per
    UTF-16 code unit, so the model covers the strings whose code units are
    below 256 (ASCII and Latin-1); [length] is then [String.length].
    Message literals of the sources are kept byte for byte. *)

(** JSON-like values: what [req.body], a decoded token, a result row or a
    response body can hold.  A number is kept as its numeral, the text
    [String(n)] gives for it ([7], [-3], [0.5], [1e+21]): the sources test
    numbers for truth, print them and hand them to the driver, which
    prints them, and do nothing else with them. *)
Inductive jsval : Type :=
| JUndefined
| JNull
| JBool (b : bool)
| JNumber (numeral : string)
| JString (s : string)
| JArray (xs : list jsval)
| JObject (fields : list (string * jsval)).

(** An object literal, in insertion order. *)
Definition object := list (string * jsval).

(** The number an integer is. *)
Definition num (n : Z) : jsval := JNumber (NilZero.string_of_int (Z.to_int n)).

(** ToBoolean: what [!v], [v || d] and [if (v)] test.  The falsy numbers
    are the zeros, both printed [0], and [NaN]. *)
Definition truthy (v : jsval) : bool :=
  match v with
  | JUndefined | JNull => false
  | JBool b => b
  | JNumber n => negb (n =? "0") && negb (n =? "NaN")
  | JString s => negb (s =? "")
  | JArray _ | JObject _ => true
  end.

(** [typeof v === 'string'] *)
Definition is_string (v : jsval) : bool :=
  match v with JString _ => true | _ => false end.

(** [Object.hasOwn(o, k)] *)
Definition has_key (k : string) (o : object) : bool :=
  existsb (fun kv => fst kv =? k) o.

(** [String(v)]; [None] is the [TypeError] of a value that cannot be
    converted.  An object parsed from JSON prints as [[object Object]]
    through the [toString] it inherits, unless it has a [toString] key of
    its own: no JSON value is callable, [valueOf] returns the object, and
    the conversion throws.  An array joins the strings of its elements,
    [undefined] and [null] counting as empty, and throws when one of them
    does. *)
Fixpoint ToString (v : jsval) : option string :=
  match v with
  | JUndefined => Some "undefined"
  | JNull => Some "null"
  | JBool true => Some "true"
  | JBool false => Some "false"
  | JNumber n => Some n
  | JString s => Some s
  | JArray xs =>
      (fix join (l : list jsval) : option string :=
         match l with
         | [] => Some EmptyString
         | x :: r =>
             match match x with
                   | JUndefined | JNull => Some EmptyString
                   | _ => ToString x
                   end with
             | None => None
             | Some sx =>
                 match r with
                 | [] => Some sx
                 | _ :: _ =>
                     match join r with
                     | Some sr => Some (sx ++ "," ++ sr)%string
                     | None => None
                     end
                 end
             end
         end) xs
  | JObject fields =>
      if has_key "toString" fields then None else Some "[object Object]"
  end.

(** A value that is a string already, read as one: a catalog name, the
    cached column. *)
Definition string_of (v : jsval) : string :=
  match v with JString s => s | _ => EmptyString end.

(** Property lookup [o.k] on an object literal given as a field list. *)
Fixpoint lookup (k : string) (o : object) : jsval :=
  match o with
  | [] => JUndefined
  | (k', v) :: rest => if k' =? k then v else lookup k rest
  end.

(** [v.k] (and [v?.k]) for a value: only objects carry the fields the code
    reads; on [undefined], strings, numbers and arrays the result is
    [undefined] (the sources guard with [req.body || {}] and [?.]). *)
Definition get (v : jsval) (k : string) : jsval :=
  match v with
  | JObject o => lookup k o
  | _ => JUndefined
  end.

(** [a || b] *)
Definition or_else (a b : jsval) : jsval := if truthy a then a else b.

(** [String.prototype.toLowerCase] on code units below 256: A-Z and the
    Latin-1 capitals U+00C0..U+00DE (U+00D7 excepted) move up by 32. *)
Definition lower_char (c : ascii) : ascii :=
  let n := nat_of_ascii c in
  if ((65 <=? n) && (n <=? 90))%nat
     || ((192 <=? n) && (n <=? 222) && negb (n =? 215))%nat
  then ascii_of_nat (n + 32) else c.

Fixpoint toLowerCase (s : string) : string :=
  match s with
  | EmptyString => EmptyString
  | String c r => String (lower_char c) (toLowerCase r)
  end.

(** Case folding of a non-unicode [/.../i] regular expression against an
    ASCII pattern: only A-Z and a-z are identified (a code unit of 128 or
    more never canonicalizes to an ASCII one). *)
Definition fold_char (c : ascii) : ascii :=
  let n := nat_of_ascii c in
  if ((65 <=? n) && (n <=? 90))%nat then ascii_of_nat (n + 32) else c.

Fixpoint fold_case (s : string) : string :=
  match s with
  | EmptyString => EmptyString
  | String c r => String (fold_char c) (fold_case r)
  end.

(** [hay.includes(needle)] *)
Fixpoint includes (needle hay : string) : bool :=
  prefix needle hay
  || match hay with
     | EmptyString => false
     | String _ r => includes needle r
     end.

(** [/duplicate key/i.test(s)] *)
Definition test_duplicate_key (s : string) : bool :=
  includes "duplicate key" (fold_case s).

(** [s.split(sep)] for a one-character separator: never empty, and an
    empty input gives one empty segment. *)
Fixpoint split (sep : ascii) (s : string) : list string :=
  match s with
  | EmptyString => [EmptyString]
  | String c r =>
      if Ascii.eqb c sep then EmptyString :: split sep r
      else match split sep r with
           | h :: t => String c h :: t
           | [] => [String c EmptyString]
           end
  end.

(** [new Set(values).has(s)] for a string [s] (SameValueZero). *)
Definition set_has (values : list jsval) (s : string) : bool :=
  existsb (fun v => match v with JString t => t =? s | _ => false end) values.

(** The double quote and the backslash, as one-character strings. *)
Definition dquote : string := String (ascii_of_nat 34) EmptyString.
Definition backslash : string := String (ascii_of_nat 92) EmptyString.

(** One code unit inside a JSON string literal: the quote, the backslash
    and the control characters are escaped, the rest stands for itself. *)
Definition quote_char (c : ascii) : string :=
  let n := nat_of_ascii c in
  let hex := fun d => substring d 1 "0123456789abcdef" in
  if (n =? 8)%nat then (backslash ++ "b")%string
  else if (n =? 9)%nat then (backslash ++ "t")%string
  else if (n =? 10)%nat then (backslash ++ "n")%string
  else if (n =? 12)%nat then (backslash ++ "f")%string
  else if (n =? 13)%nat then (backslash ++ "r")%string
  else if (n =? 34)%nat then (backslash ++ dquote)%string
  else if (n =? 92)%nat then (backslash ++ backslash)%string
  else if (n <? 32)%nat then (backslash ++ "u00" ++ hex (n / 16)%nat ++ hex (n mod 16)%nat)%string
  else String c EmptyString.

(** A string as a JSON string literal. *)
Fixpoint json_quote_chars (s : string) : string :=
  match s with
  | EmptyString => EmptyString
  | String c r => (quote_char c ++ json_quote_chars r)%string
  end.

Definition json_quote (s : string) : string :=
  (dquote ++ json_quote_chars s ++ dquote)%string.

(** The value of a string of decimal digits. *)
Fixpoint digits_value (s : string) (acc : N) : option N :=
  match s with
  | EmptyString => Some acc
  | String c r =>
      let n := nat_of_ascii c in
      if ((48 <=? n) && (n <=? 57))%nat
      then digits_value r (acc * 10 + N.of_nat (n - 48))%N
      else None
  end.

(** A property key that is an array index: the canonical numeral of an
    integer below 2^32 - 1.  Such keys are enumerated first, in
    ascending order, whenever they were created. *)
Definition array_index (k : string) : option N :=
  match k with
  | EmptyString => None
  | String c r =>
      if Ascii.eqb c "0" && negb (r =? EmptyString) then None
      else match digits_value k 0 with
           | Some n => if (n <=? 4294967294)%N then Some n else None
           | None => None
           end
  end.

(** The properties of an object literal: a key written twice is one
    property, the one [lookup] finds. *)
Fixpoint own_properties {A : Type} (seen : list string) (o : list (string * A))
  : list (string * A) :=
  match o with
  | [] => []
  | (k, v) :: rest =>
      if existsb (String.eqb k) seen then own_properties seen rest
      else (k, v) :: own_properties (k :: seen) rest
  end.

Fixpoint insert_indexed {A : Type} (i : N) (m : A) (l : list (N * A)) : list (N * A) :=
  match l with
  | [] => [(i, m)]
  | (j, x) :: rest =>
      if (i <? j)%N then (i, m) :: (j, x) :: rest else (j, x) :: insert_indexed i m rest
  end.

(** The order in which the properties of an object are enumerated:
    array indices ascending, then the other keys as created. *)
Definition enumerate {A : Type} (o : list (string * A)) : list (string * A) :=
  let indexed :=
    fold_left (fun acc kv => match array_index (fst kv) with
                             | Some i => insert_indexed i kv acc
                             | None => acc
                             end) o [] in
  map snd indexed
  ++ filter (fun kv => match array_index (fst kv) with Some _ => false | None => true end) o.

(** [JSON.stringify(v)] for a value parsed from JSON; [None] is
    [undefined], which an object leaves out and an array prints as
    [null]. *)
Fixpoint stringify (v : jsval) : option string :=
  match v with
  | JUndefined => None
  | JNull => Some "null"
  | JBool true => Some "true"
  | JBool false => Some "false"
  | JNumber n =>
      Some (if (n =? "NaN") || (n =? "Infinity") || (n =? "-Infinity") then "null" else n)
  | JString s => Some (json_quote s)
  | JArray xs =>
      Some ("[" ++ String.concat ","
                     ((fix items (l : list jsval) : list string :=
                         match l with
                         | [] => []
                         | x :: r => match stringify x with
                                     | Some t => t
                                     | None => "null"
                                     end :: items r
                         end) xs) ++ "]")%string
  | JObject fields =>
      let texts :=
        (fix members (l : list (string * jsval)) : list (string * option string) :=
           match l with
           | [] => []
           | (k, x) :: r => (k, stringify x) :: members r
           end) fields in
      Some ("{" ++ String.concat ","
                     (flat_map (fun kt => match snd kt with
                                          | Some t => [(json_quote (fst kt) ++ ":" ++ t)%string]
                                          | None => []
                                          end)
                               (enumerate (own_properties [] texts))) ++ "}")%string
  end.

End JS.
Import JS.

(* ================================================================== *)
(** ** Requests, responses, errors and the calls to collaborators      *)
(* ================================================================== *)

Module Prog.

(** A thrown [Error]: the fields the handlers read. *)
Record error : Type := Error {
  err_name : string;
  err_code : option string;
  err_message : option string;
  err_detail : option string
}.

(** [new Error(msg)] *)
Definition new_Error (msg : string) : error :=
  Error "Error" None (Some msg) None.

(** An optional string field read into a JSON value. *)
Definition opt_val (o : option string) : jsval :=
  match o with Some s => JString s | None => JUndefined end.

(** The parts of an Express request the handlers read: the
    [Authorization] header, the parsed body, and [req.user]. *)
Record request : Type := Request {
  authorization : option string;
  body : jsval;
  user : jsval
}.

Definition set_user (req : request) (decoded : jsval) : request :=
  Request (authorization req) (body req) decoded.

(** [res.status(s).json(b)]; [res.json(b)] alone has status 200. *)
Record response : Type := Response {
  status : Z;
  json : object
}.

(** A result row of the SQL client. *)
Definition row := object.

(** The statements the sources send, with their parameters.
    - [QUserIdColumn]: [SELECT column_name FROM information_schema.columns
      WHERE table_name = 'users' AND column_name IN ('id','user_id')]
    - [QCreatedAtColumn]: the same with [column_name = 'created_at']
    - [QNameColumns]: the same with [column_name IN ('full_name','name')]
    - [QUsersColumns]: [SELECT column_name, is_nullable, column_default ...
      WHERE table_name = 'users']
    - [QEmailExists e]: [SELECT 1 FROM users WHERE email = $1]
    - [QInsertUser cols vals]: [INSERT INTO users (cols) VALUES ($1, ...)]
    - [QLoginSelect idCol nameExpr e]: [SELECT idCol AS uid, email,
      nameExpr AS name, password_hash FROM users WHERE email = $1]
    - [QMeSelect idCol nameExpr createdExpr uid]: [SELECT idCol AS uid,
      email, nameExpr AS name, createdExpr AS created_at FROM users
      WHERE idCol = $1]
    - [QUpdateUser sets idCol n vals]: [UPDATE users SET c = $i, ...
      WHERE idCol = $n], [sets] pairing each column with its placeholder
    - [QVerifyAccess u q]: the three-table join of [/api/room/verify-access]. *)
Inductive query : Type :=
| QUserIdColumn
| QCreatedAtColumn
| QNameColumns
| QUsersColumns
| QEmailExists (email : string)
| QInsertUser (insertCols : list string) (values : list jsval)
| QLoginSelect (idCol nameExpr : string) (email : string)
| QMeSelect (idCol nameExpr createdExpr : string) (uid : jsval)
| QUpdateUser (sets : list (string * nat)) (idCol : string) (idParam : nat)
              (vals : list jsval)
| QVerifyAccess (user_id qr_code_id : jsval).

(** Handler programs: a result, or a call to a collaborator followed by
    the rest of the handler, which receives the call's outcome (an
    exception is [inl]). *)
Inductive prog (A : Type) : Type :=
| Ret (a : A)
| Connect (k : option error -> prog A)
| Query (q : query) (k : error + list row -> prog A)
| Release (k : prog A)
| BcryptHash (s : string) (rounds : Z) (k : error + string -> prog A)
| BcryptCompare (s hash : jsval) (k : error + bool -> prog A)
| RandomBytesHex (n : Z) (k : string -> prog A)
| JwtSign (payload : jsval) (expiresIn : string) (k : error + string -> prog A)
| JwtVerify (token : string) (k : error + jsval -> prog A)
| ReadCachedUserIdColumn (k : option string -> prog A)
| WriteCachedUserIdColumn (col : string) (k : prog A).

Arguments Ret {A} a.
Arguments Connect {A} k.
Arguments Query {A} q k.
Arguments Release {A} k.
Arguments BcryptHash {A} s rounds k.
Arguments BcryptCompare {A} s hash k.
Arguments RandomBytesHex {A} n k.
Arguments JwtSign {A} payload expiresIn k.
Arguments JwtVerify {A} token k.
Arguments ReadCachedUserIdColumn {A} k.
Arguments WriteCachedUserIdColumn {A} col k.

Fixpoint bind {A B : Type} (m : prog A) (f : A -> prog B) : prog B :=
  match m with
  | Ret a => f a
  | Connect k => Connect (fun r => bind (k r) f)
  | Query q k => Query q (fun r => bind (k r) f)
  | Release k => Release (bind k f)
  | BcryptHash s n k => BcryptHash s n (fun r => bind (k r) f)
  | BcryptCompare s h k => BcryptCompare s h (fun r => bind (k r) f)
  | RandomBytesHex n k => RandomBytesHex n (fun r => bind (k r) f)
  | JwtSign p e k => JwtSign p e (fun r => bind (k r) f)
  | JwtVerify t k => JwtVerify t (fun r => bind (k r) f)
  | ReadCachedUserIdColumn k => ReadCachedUserIdColumn (fun r => bind (k r) f)
  | WriteCachedUserIdColumn c k => WriteCachedUserIdColumn c (bind k f)
  end.

(** The body of a [try] block: a program that ends in a value or in a
    thrown error; a throw skips what follows. *)
Definition try_ (A : Type) : Type := prog (error + A).

Definition ret {A : Type} (a : A) : try_ A := Ret (inr a).
Definition throw {A : Type} (e : error) : try_ A := Ret (inl e).

Definition and_then {A B : Type} (m : try_ A) (f : A -> try_ B) : try_ B :=
  bind m (fun r => match r with inl e => Ret (inl e) | inr a => f a end).

Declare Scope try_scope.
Delimit Scope try_scope with try_.
Notation "x <- m ;; k" := (and_then m (fun x => k))
  (at level 61, m at next level, right associativity) : try_scope.

(** [await client.query(...)], [await bcrypt.hash(...)] and the like. *)
Definition query_ (q : query) : try_ (list row) := Query q Ret.
Definition bcrypt_hash (s : string) (rounds : Z) : try_ string := BcryptHash s rounds Ret.
Definition bcrypt_compare (s hash : jsval) : try_ bool := BcryptCompare s hash Ret.
Definition randomBytesHex (n : Z) : try_ string := RandomBytesHex n (fun s => Ret (inr s)).
Definition jwt_sign (payload : jsval) (expiresIn : string) : try_ string :=
  JwtSign payload expiresIn Ret.

(** The shape every database handler shares:
    [let client; try { client = await pool.connect(); BODY }
     catch (error) { HANDLER } finally { if (client) client.release(); }].
    When [pool.connect()] itself throws there is no client to release. *)
Definition with_client {A : Type} (body : try_ A) (handler : error -> A) : prog A :=
  Connect (fun c =>
    match c with
    | Some e => Ret (handler e)
    | None =>
        bind body (fun r =>
          Release (Ret (match r with inl e => handler e | inr a => a end)))
    end).

(** What a handler leaves on the wire: [Some r] is the response it
    wrote; [None] is a handler that threw before it wrote any.  A part of
    a handler that always answers is wrapped by [answered]. *)
Definition answered (m : prog response) : prog (option response) :=
  bind m (fun r => Ret (Some r)).

End Prog.
Import Prog.

(* ================================================================== *)
(** ** The schema-adaptive auth controller                              *)
(* ================================================================== *)

Module AuthController.

Local Open Scope try_scope.

(** [res.rows.map(r => r.column_name)] *)
Definition column_names (rows : list row) : list jsval :=
  map (lookup "column_name") rows.

(** [getUserIdColumn]: the module-level cache wins when set; otherwise the
    first of [id]/[user_id] the catalog reports, [user_id] by default. *)
Definition getUserIdColumn : try_ string :=
  ReadCachedUserIdColumn (fun cachedUserIdColumn =>
    if truthy (opt_val cachedUserIdColumn)
    then ret (string_of (opt_val cachedUserIdColumn))
    else
      res <- query_ QUserIdColumn ;;
      let col := match res with
                 | r :: _ => string_of (or_else (lookup "column_name" r) (JString "user_id"))
                 | [] => "user_id"
                 end in
      WriteCachedUserIdColumn col (ret col)).

(** [getCreatedAtExpr] *)
Definition getCreatedAtExpr : try_ string :=
  res <- query_ QCreatedAtColumn ;;
  ret (if (0 <? length res)%nat then "created_at" else "NOW()").

(** The choice [getNameExpr] makes from the catalog rows. *)
Definition nameExprOf (rows : list row) : string :=
  let cols := column_names rows in
  if set_has cols "full_name" && set_has cols "name" then "COALESCE(full_name, name)"
  else if set_has cols "full_name" then "full_name"
  else if set_has cols "name" then "name"
  else "NULL".

(** [getNameExpr] *)
Definition getNameExpr : try_ string :=
  res <- query_ QNameColumns ;;
  ret (nameExprOf res).

Definition bad_request (msg : string) : response :=
  Response 400 [("success", JBool false); ("message", JString msg)].

(** [res.status(409).json({ success: false, message: 'Email already registered' })] *)
Definition conflict : response :=
  Response 409 [("success", JBool false); ("message", JString "Email already registered")].

(** [res.status(201).json({ success: true, message: 'Account created' })] *)
Definition created : response :=
  Response 201 [("success", JBool true); ("message", JString "Account created")].

(** [res.status(401).json({ success: false, message: 'Invalid credentials' })] *)
Definition invalid_credentials : response :=
  Response 401 [("success", JBool false); ("message", JString "Invalid credentials")].

Definition unauthorized : response :=
  Response 401 [("success", JBool false); ("message", JString "Unauthorized")].

Definition internal_error : response :=
  Response 500 [("success", JBool false); ("message", JString "Internal server error")].

(** [error.code === '23505' || /duplicate key/i.test(error.message || '')] *)
Definition is_duplicate_key (e : error) : bool :=
  match err_code e with
  | Some c => c =? "23505"
  | None => false
  end
  || test_duplicate_key (match err_message e with
                         | Some m => m
                         | None => EmptyString
                         end).

Section Register.

(** [process.env.NODE_ENV] *)
Variable NODE_ENV : option string.

Definition production : bool :=
  match NODE_ENV with
  | Some v => v =? "production"
  | None => false
  end.

(** The [catch] block of [register]. *)
Definition register_catch (e : error) : response :=
  if is_duplicate_key e then conflict
  else
    let message :=
      match err_message e with
      | Some m => if m =? EmptyString then "Internal server error" else m
      | None => "Internal server error"
      end in
    let payload := [("success", JBool false); ("message", JString message)] in
    Response 500
      (if negb production
       then payload ++ [("code", opt_val (err_code e)); ("detail", opt_val (err_detail e))]
       else payload).

(** The two arrays [insertCols] and [values], filled in step. *)
Definition push (acc : list string * list jsval) (c : string) (v : jsval)
  : list string * list jsval :=
  (fst acc ++ [c], snd acc ++ [v]).

(** The columns and values of the insert, from the columns the catalog
    reports for the users table. *)
Definition insert_plan (available : list jsval) (normalizedEmail : string)
    (name : jsval) (passwordHash aadhaarKey : string) : list string * list jsval :=
  let acc := ([], []) in
  let acc := if set_has available "email"
             then push acc "email" (JString normalizedEmail) else acc in
  let nameValue := or_else name (JString (hd EmptyString (split "@" normalizedEmail))) in
  let acc := if set_has available "full_name" && set_has available "name"
             then push (push acc "full_name" nameValue) "name" nameValue
             else if set_has available "full_name" then push acc "full_name" nameValue
             else if set_has available "name" then push acc "name" nameValue
             else acc in
  let acc := if set_has available "password_hash"
             then push acc "password_hash" (JString passwordHash) else acc in
  let acc := if set_has available "aadhaar_key"
             then push acc "aadhaar_key" (JString aadhaarKey) else acc in
  acc.

(** The [try] block of [register], after [pool.connect()]. *)
Definition register_try (normalizedEmail password : string) (name : jsval)
  : try_ response :=
  existing <- query_ (QEmailExists normalizedEmail) ;;
  if (0 <? length existing)%nat then ret conflict
  else
    passwordHash <- bcrypt_hash password 10 ;;
    aadhaarKey <- randomBytesHex 16 ;;
    colsRes <- query_ QUsersColumns ;;
    let available := column_names colsRes in
    let '(insertCols, values) :=
      insert_plan available normalizedEmail name passwordHash aadhaarKey in
    if (length insertCols =? 0)%nat
    then throw (new_Error "No compatible columns found for users insert")
    else
      _ <- query_ (QInsertUser insertCols values) ;;
      ret created.

(** [register].  [String(email)] stands before the [try]: when it throws
    the handler ends there, with no response written and no call made. *)
Definition register (req : request) : prog (option response) :=
  let b := or_else (body req) (JObject []) in
  let email := get b "email" in
  let password := get b "password" in
  let name := get b "name" in
  if negb (truthy email) || negb (truthy password)
  then Ret (Some (bad_request "Email and password required"))
  else
    match password with
    | JString pw =>
        if (String.length pw <? 6)%nat
        then Ret (Some (bad_request "Password must be at least 6 characters"))
        else
          match ToString email with
          | None => Ret None
          | Some text =>
              let normalizedEmail := toLowerCase text in
              answered (with_client (register_try normalizedEmail pw name) register_catch)
          end
    | _ => Ret (Some (bad_request "Password must be at least 6 characters"))
    end.

End Register.

(** The [try] block of [login]. *)
Definition login_try (normalizedEmail : string) (password : jsval) : try_ response :=
  idCol <- getUserIdColumn ;;
  nameExpr <- getNameExpr ;;
  result <- query_ (QLoginSelect idCol nameExpr normalizedEmail) ;;
  match result with
  | [] => ret invalid_credentials
  | user :: _ =>
      ok <- (if truthy (lookup "password_hash" user)
             then bcrypt_compare password (lookup "password_hash" user)
             else ret false) ;;
      if negb ok then ret invalid_credentials
      else
        token <- jwt_sign (JObject [("userId", lookup "uid" user)]) "1h" ;;
        ret (Response 200 [("success", JBool true); ("token", JString token)])
  end.

(** [login].  As in [register], [String(email)] stands before the [try]. *)
Definition login (req : request) : prog (option response) :=
  let b := or_else (body req) (JObject []) in
  let email := get b "email" in
  let password := get b "password" in
  if negb (truthy email) || negb (truthy password)
  then Ret (Some (bad_request "Email and password required"))
  else
    match ToString email with
    | None => Ret None
    | Some text =>
        let normalizedEmail := toLowerCase text in
        answered (with_client (login_try normalizedEmail password) (fun _ => internal_error))
    end.

(** [getMe] *)
Definition getMe (req : request) : prog response :=
  let userId := get (user req) "userId" in
  if negb (truthy userId) then Ret unauthorized
  else
    with_client
      (idCol <- getUserIdColumn ;;
       nameExpr <- getNameExpr ;;
       createdExpr <- getCreatedAtExpr ;;
       result <- query_ (QMeSelect idCol nameExpr createdExpr userId) ;;
       match result with
       | [] => ret (Response 404 [("success", JBool false);
                                  ("message", JString "User not found")])
       | u :: _ =>
           ret (Response 200
                  [("success", JBool true);
                   ("user", JObject [("id", lookup "uid" u);
                                     ("email", lookup "email" u);
                                     ("name", lookup "name" u);
                                     ("createdAt", lookup "created_at" u)])])
       end)
      (fun _ => internal_error).

(** [logout] *)
Definition logout (req : request) : prog response :=
  Ret (Response 200 [("success", JBool true); ("message", JString "Logged out")]).

(** [verifyAadhaar] *)
Definition verifyAadhaar (req : request) : prog response :=
  Ret (Response 200 [("success", JBool true);
                     ("message", JString "Aadhaar verified (stub)")]).

(** The [SET] clauses and the parameter array [updateProfile] builds: one
    clause per name column present, each numbered by the length of [vals]
    when it is pushed; the user id goes last. *)
Definition update_plan (cols : list jsval) (name userId : jsval)
  : list (string * nat) * list jsval :=
  let sets := [] in
  let vals := [] in
  let '(sets, vals) :=
    if set_has cols "full_name"
    then (sets ++ [("full_name", length vals + 1)], vals ++ [name])
    else (sets, vals) in
  let '(sets, vals) :=
    if set_has cols "name"
    then (sets ++ [("name", length vals + 1)], vals ++ [name])
    else (sets, vals) in
  (sets, vals ++ [userId]).

(** [updateProfile] *)
Definition updateProfile (req : request) : prog response :=
  let userId := get (user req) "userId" in
  if negb (truthy userId) then Ret unauthorized
  else
    let b := or_else (body req) (JObject []) in
    let name := get b "name" in
    if negb (truthy name) || negb (is_string name)
    then Ret (bad_request "Name is required")
    else
      with_client
        (idCol <- getUserIdColumn ;;
         colsRes <- query_ QNameColumns ;;
         let cols := column_names colsRes in
         match cols with
         | [] => ret (bad_request "No updatable name column found")
         | _ :: _ =>
             let '(sets, vals) := update_plan cols name userId in
             _ <- query_ (QUpdateUser sets idCol (length vals) vals) ;;
             ret (Response 200 [("success", JBool true);
                                ("message", JString "Profile updated");
                                ("name", name)])
         end)
        (fun _ => internal_error).

End AuthController.

(* ================================================================== *)
(** ** The access middleware                                            *)
(* ================================================================== *)

Module AuthMiddleware.

Definition rejected (msg : string) : response :=
  Response 401 [("success", JBool false); ("message", JString msg)].

Definition no_token : response :=
  rejected "❌ No token provided. Please login first.".

Definition invalid_format : response :=
  rejected "❌ Invalid token format".

Definition token_expired : response :=
  rejected "❌ Token expired. Please login again.".

(** ['❌ Invalid token: ' + error.message]; a message that is not there
    prints as [undefined]. *)
Definition invalid_token (e : error) : response :=
  rejected ("❌ Invalid token: " ++ match err_message e with
                                   | Some m => m
                                   | None => "undefined"
                                   end)%string.

(** [authHeader.split(' ')[1]] *)
Definition token_of (authHeader : string) : option string :=
  nth_error (split " " authHeader) 1.

(** [verifyToken (req, res, next)]: [next] is the rest of the route, which
    receives the request with [req.user] set.  The handlers behind it are
    asynchronous, so nothing they throw reaches this [catch]. *)
Definition verifyToken (req : request) (next : request -> prog response)
  : prog response :=
  match authorization req with
  | None => Ret no_token
  | Some authHeader =>
      if authHeader =? EmptyString then Ret no_token
      else
        match token_of authHeader with
        | None => Ret invalid_format
        | Some token =>
            if token =? EmptyString then Ret invalid_format
            else
              JwtVerify token (fun r =>
                match r with
                | inr decoded => next (set_user req decoded)
                | inl e =>
                    if err_name e =? "TokenExpiredError"
                    then Ret token_expired
                    else Ret (invalid_token e)
                end)
        end
  end.

End AuthMiddleware.

(* ================================================================== *)
(** ** Routes                                                           *)
(* ================================================================== *)

Module Server.

Import AuthController AuthMiddleware.
Local Open Scope try_scope.

(** [routes/authRoutes.js]: the protected routes go through [verifyToken]. *)
Definition route_me (req : request) : prog response := verifyToken req getMe.
Definition route_logout (req : request) : prog response := verifyToken req logout.
Definition route_verify_aadhaar (req : request) : prog response :=
  verifyToken req verifyAadhaar.
Definition route_update_profile (req : request) : prog response :=
  verifyToken req updateProfile.

Definition verification_failed : response :=
  Response 403 [("success", JBool false);
                ("message", JString "Verification failed. Invalid or expired booking.")].

(** [app.post('/api/room/verify-access', ...)].  The destructuring of
    [req.body] is outside the [try]: on a missing body the handler throws
    before any response is written, which is the [None] result. *)
Definition verify_access (req : request) : prog (option response) :=
  match body req with
  | JUndefined | JNull => Ret None
  | b =>
      let user_id := get b "user_id" in
      let qr_code_id := get b "qr_code_id" in
      if negb (truthy user_id) || negb (truthy qr_code_id)
      then Ret (Some (Response 400 [("success", JBool false);
                                    ("message", JString "User ID and QR Code ID required")]))
      else
        with_client
          (result <- query_ (QVerifyAccess user_id qr_code_id) ;;
           match result with
           | [] => ret (Some verification_failed)
           | booking :: _ =>
               ret (Some (Response 200
                            [("success", JBool true);
                             ("message", JString "Access granted!");
                             ("booking_token", lookup "token_id" booking);
                             ("digital_signature", lookup "digital_signature" booking)]))
           end)
          (fun error =>
             Some (Response 500 [("success", JBool false);
                                 ("message", opt_val (err_message error))]))
  end.

End Server.

(* ================================================================== *)
(** ** The store and the libraries the programs run against             *)
(* ================================================================== *)

Module Store.

(** The rows the verify-access join reads.  A [NULL] timestamp or flag is
    [None]; timestamps are instants on the clock of [NOW()]. *)
Record booking : Type := Booking {
  booking_id : jsval;
  booking_user_id : jsval;
  booking_room_id : jsval;
  booking_status : jsval;
  check_in_time : option Z;
  check_out_time : option Z
}.

Record room : Type := Room {
  room_id : jsval;
  room_qr_code_id : jsval
}.

Record booking_token : Type := BookingToken {
  token_id : jsval;
  token_booking_id : jsval;
  is_valid : option bool;
  digital_signature : jsval
}.

(** bcryptjs, crypto and jsonwebtoken, as functions of their arguments and
    of what the process supplies (randomness, the clock, the secret). *)
Record library : Type := Library {
  lib_bcrypt_hash : string -> Z -> nat -> string;
  lib_bcrypt_compare : jsval -> jsval -> error + bool;
  lib_random_hex : Z -> nat -> string;
  lib_jwt_sign : jsval -> string -> Z -> error + string;
  lib_jwt_verify : string -> Z -> error + jsval
}.

(** The state a handler runs in: the database (the users table with the
    columns it has, as [ensureSchema] or an older schema left it, and the
    booking tables), the pool, the clock, the module-level
    [cachedUserIdColumn] and a counter feeding the random sources.
    [id_listed_first] is the server's choice when a catalog query without
    [ORDER BY] returns both [id] and [user_id].  The booking tables are
    declared outside these sources: [user_id_input] and [qr_code_input]
    are the input conversions of the types of [bookings.user_id] and
    [rooms.qr_code_id], by which the server reads a parameter that is
    compared with the column (the identity for a text column; for an
    integer column the integer the text writes, and an error on a text
    that writes none). *)
Record world : Type := World {
  conn_error : option error;
  users_columns : list string;
  id_listed_first : bool;
  users : list row;
  next_user_id : Z;
  bookings : list booking;
  rooms : list room;
  booking_tokens : list booking_token;
  user_id_input : string -> error + string;
  qr_code_input : string -> error + string;
  now : Z;
  cachedUserIdColumn : option string;
  entropy : nat
}.

Definition with_users (w : world) (us : list row) (next : Z) : world :=
  World (conn_error w) (users_columns w) (id_listed_first w) us next (bookings w) (rooms w)
        (booking_tokens w) (user_id_input w) (qr_code_input w) (now w)
        (cachedUserIdColumn w) (entropy w).

Definition with_cache (w : world) (c : option string) : world :=
  World (conn_error w) (users_columns w) (id_listed_first w) (users w) (next_user_id w)
        (bookings w) (rooms w) (booking_tokens w) (user_id_input w) (qr_code_input w)
        (now w) c (entropy w).

Definition tick (w : world) : world :=
  World (conn_error w) (users_columns w) (id_listed_first w) (users w) (next_user_id w)
        (bookings w) (rooms w) (booking_tokens w) (user_id_input w) (qr_code_input w)
        (now w) (cachedUserIdColumn w) (S (entropy w)).

(** SQL [NULL]: the driver sends [undefined] as [NULL] too. *)
Definition sql_null (v : jsval) : bool :=
  match v with JUndefined | JNull => true | _ => false end.

(** An element of an array parameter, as node-postgres writes it: in
    double quotes, with a backslash before each backslash and quote. *)
Fixpoint escape_chars (s : string) : string :=
  match s with
  | EmptyString => EmptyString
  | String c r =>
      if Ascii.eqb c (ascii_of_nat 92) || Ascii.eqb c (ascii_of_nat 34)
      then (backslash ++ String c (escape_chars r))%string
      else String c (escape_chars r)
  end.

Definition escape_element (s : string) : string :=
  (dquote ++ escape_chars s ++ dquote)%string.

(** The text node-postgres sends for a parameter ([prepareValue]);
    [None] is [NULL].  Strings go as they are, numbers and booleans as
    they print, an array as the array literal [{...}] of its elements
    ([NULL] for [null] and [undefined], nested arrays bare, anything else
    quoted), any other object as its JSON text. *)
Fixpoint pg_text (v : jsval) : option string :=
  match v with
  | JUndefined | JNull => None
  | JBool true => Some "true"
  | JBool false => Some "false"
  | JNumber n => Some n
  | JString s => Some s
  | JArray xs =>
      Some ("{" ++ String.concat ","
                     ((fix elements (l : list jsval) : list string :=
                         match l with
                         | [] => []
                         | x :: r =>
                             match pg_text x with
                             | None => "NULL"
                             | Some t => match x with
                                         | JArray _ => t
                                         | _ => escape_element t
                                         end
                             end :: elements r
                         end) xs) ++ "}")%string
  | JObject _ => stringify v
  end.

(** SQL [a = b] is true: neither side is [NULL] and the texts agree.  A
    parameter reaches the server as the text the driver makes of it, and
    a stored value is compared by the text that stands for it. *)
Definition sql_eq (a b : jsval) : bool :=
  match pg_text a, pg_text b with
  | Some x, Some y => x =? y
  | _, _ => false
  end.

(** What a text column keeps of a parameter. *)
Definition stored (v : jsval) : jsval :=
  match pg_text v with
  | Some t => JString t
  | None => JNull
  end.

Definition mem (c : string) (cs : list string) : bool := existsb (String.eqb c) cs.

(** PostgreSQL's errors: [42703] undefined column, [42601] syntax error,
    [23505] unique violation. *)
Definition undefined_column (c : string) : error :=
  Error "error" (Some "42703")
        (Some ("column " ++ dquote ++ c ++ dquote ++ " does not exist"))%string None.

Definition syntax_error : error :=
  Error "error" (Some "42601") (Some "syntax error at or near )") None.

Definition unique_violation (email : jsval) : error :=
  Error "error" (Some "23505")
        (Some ("duplicate key value violates unique constraint "
               ++ dquote ++ "users_email_key" ++ dquote))%string
        (Some ("Key (email)=(" ++ string_of (stored email) ++ ") already exists."))%string.

(** The first column of [cs] the users table lacks. *)
Definition missing_column (w : world) (cs : list string) : option string :=
  find (fun c => negb (mem c (users_columns w))) cs.

(** [information_schema.columns] for the users table, restricted to
    [names]; only [column_name] is ever read from these rows. *)
Definition catalog (w : world) (keep : string -> bool) : list row :=
  map (fun c => [("column_name", JString c)]) (filter keep (users_columns w)).

(** Which of [id] and [user_id] the users table has, in the order the
    catalog lists them: the statement of [getUserIdColumn] has no
    [ORDER BY], so with both columns the order is the server's. *)
Definition id_columns (w : world) : list string :=
  let ids := filter (String.eqb "id") (users_columns w) in
  let user_ids := filter (String.eqb "user_id") (users_columns w) in
  if id_listed_first w then ids ++ user_ids else user_ids ++ ids.

(** The columns a select expression built by the adapter mentions. *)
Definition expr_columns (e : string) : list string :=
  if e =? "COALESCE(full_name, name)" then ["full_name"; "name"]
  else if (e =? "NULL") || (e =? "NOW()") then []
  else [e].

(** The value of such an expression on a users row. *)
Definition eval_expr (w : world) (e : string) (r : row) : jsval :=
  if e =? "COALESCE(full_name, name)"
  then (if sql_null (lookup "full_name" r) then lookup "name" r
        else lookup "full_name" r)
  else if e =? "NULL" then JNull
  else if e =? "NOW()" then num (now w)
  else lookup e r.

(** The value a column takes when an insert does not supply it: the
    serial for the id column, [NOW()] for [created_at], [NULL] otherwise.
    The columns an insert does supply are the text columns of
    [ensureSchema], which keep the text of what they are given. *)
Definition column_default (w : world) (c : string) : jsval :=
  if (c =? "user_id") || (c =? "id") then num (next_user_id w)
  else if c =? "created_at" then num (now w)
  else JNull.

Definition has_email (w : world) (email : jsval) : bool :=
  existsb (fun r => sql_eq (lookup "email" r) email) (users w).

(** [object[k] = v] on a row: replace the field, or add it. *)
Fixpoint set_field (k : string) (v : jsval) (r : row) : row :=
  match r with
  | [] => [(k, v)]
  | (k', v') :: rest =>
      if k' =? k then (k, v) :: rest else (k', v') :: set_field k v rest
  end.

(** [$i] in a parameter array. *)
Definition param (vals : list jsval) (i : nat) : jsval :=
  nth (i - 1) vals JNull.

Definition apply_sets (sets : list (string * nat)) (vals : list jsval) (r : row) : row :=
  fold_left (fun acc s => set_field (fst s) (stored (param vals (snd s))) acc) sets r.

(** A parameter that is compared with a column, as the type of the
    column reads it: [NULL] stays [NULL], a text is converted, and a text
    the type does not accept is an error of the statement. *)
Definition read_parameter (input : string -> error + string) (v : jsval)
  : error + jsval :=
  match pg_text v with
  | None => inr JNull
  | Some x => match input x with
              | inl e => inl e
              | inr t => inr (JString t)
              end
  end.

Definition le_opt (a b : option Z) : bool :=
  match a, b with
  | Some x, Some y => (x <=? y)%Z
  | _, _ => false
  end.

(** The rows of
    [bookings b JOIN rooms r ON b.room_id = r.room_id
     JOIN booking_tokens bt ON b.booking_id = bt.booking_id
     WHERE b.user_id = $1 AND r.qr_code_id = $2 AND bt.is_valid = true
     AND b.check_in_time <= NOW() AND NOW() <= b.check_out_time],
    for the two parameters as their columns read them. *)
Definition access_match (w : world) (u q : jsval)
    (b : booking) (r : room) (bt : booking_token) : bool :=
  sql_eq (booking_room_id b) (room_id r)
  && sql_eq (booking_id b) (token_booking_id bt)
  && sql_eq (booking_user_id b) u
  && sql_eq (room_qr_code_id r) q
  && match is_valid bt with Some v => v | None => false end
  && le_opt (check_in_time b) (Some (now w))
  && le_opt (Some (now w)) (check_out_time b).

Definition access_row (b : booking) (r : room) (bt : booking_token) : row :=
  [("booking_id", booking_id b); ("status", booking_status b);
   ("qr_code_id", room_qr_code_id r); ("token_id", token_id bt);
   ("digital_signature", digital_signature bt)].

Definition access_rows (w : world) (u q : jsval) : list row :=
  flat_map (fun b =>
    flat_map (fun r =>
      flat_map (fun bt =>
        if access_match w u q b r bt then [access_row b r bt] else [])
        (booking_tokens w))
      (rooms w))
    (bookings w).

(** One statement against the store. *)
Definition pg_query (q : query) (w : world) : (error + list row) * world :=
  match q with
  | QUserIdColumn =>
      (inr (map (fun c => [("column_name", JString c)]) (id_columns w)), w)
  | QCreatedAtColumn =>
      (inr (catalog w (fun c => c =? "created_at")), w)
  | QNameColumns =>
      (inr (catalog w (fun c => (c =? "full_name") || (c =? "name"))), w)
  | QUsersColumns =>
      (inr (catalog w (fun _ => true)), w)
  | QEmailExists email =>
      match missing_column w ["email"] with
      | Some c => (inl (undefined_column c), w)
      | None =>
          (inr (map (fun _ => [("?column?", num 1)])
                    (filter (fun r => sql_eq (lookup "email" r) (JString email))
                            (users w))), w)
      end
  | QInsertUser insertCols values =>
      match insertCols, missing_column w insertCols with
      | [], _ => (inl syntax_error, w)
      | _, Some c => (inl (undefined_column c), w)
      | _, None =>
          let given := combine insertCols values in
          let email := if mem "email" insertCols then lookup "email" given else JNull in
          if has_email w email then (inl (unique_violation email), w)
          else
            let r := map (fun c => (c, if mem c insertCols then stored (lookup c given)
                                       else column_default w c))
                         (users_columns w) in
            (inr [], with_users w (users w ++ [r]) (next_user_id w + 1))
      end
  | QLoginSelect idCol nameExpr email =>
      match missing_column w (idCol :: "email" :: expr_columns nameExpr
                              ++ ["password_hash"]) with
      | Some c => (inl (undefined_column c), w)
      | None =>
          (inr (map (fun r => [("uid", lookup idCol r);
                               ("email", lookup "email" r);
                               ("name", eval_expr w nameExpr r);
                               ("password_hash", lookup "password_hash" r)])
                    (filter (fun r => sql_eq (lookup "email" r) (JString email))
                            (users w))), w)
      end
  | QMeSelect idCol nameExpr createdExpr uid =>
      match missing_column w (idCol :: "email" :: expr_columns nameExpr
                              ++ expr_columns createdExpr) with
      | Some c => (inl (undefined_column c), w)
      | None =>
          (inr (map (fun r => [("uid", lookup idCol r);
                               ("email", lookup "email" r);
                               ("name", eval_expr w nameExpr r);
                               ("created_at", eval_expr w createdExpr r)])
                    (filter (fun r => sql_eq (lookup idCol r) uid) (users w))), w)
      end
  | QUpdateUser sets idCol idParam vals =>
      match sets, missing_column w (map fst sets ++ [idCol]) with
      | [], _ => (inl syntax_error, w)
      | _, Some c => (inl (undefined_column c), w)
      | _, None =>
          (inr [],
           with_users w
             (map (fun r => if sql_eq (lookup idCol r) (param vals idParam)
                            then apply_sets sets vals r else r)
                  (users w))
             (next_user_id w))
      end
  | QVerifyAccess u q =>
      match read_parameter (user_id_input w) u with
      | inl e => (inl e, w)
      | inr u' =>
          match read_parameter (qr_code_input w) q with
          | inl e => (inl e, w)
          | inr q' => (inr (access_rows w u' q'), w)
          end
      end
  end.

Section Run.

Variable lib : library.

(** One call of a program, answered by the store and the libraries. *)
Definition step {A : Type} (p : prog A) (w : world) : prog A * world :=
  match p with
  | Ret a => (Ret a, w)
  | Connect k => (k (conn_error w), w)
  | Query q k => let '(r, w') := pg_query q w in (k r, w')
  | Release k => (k, w)
  | BcryptHash s n k => (k (inr (lib_bcrypt_hash lib s n (entropy w))), tick w)
  | BcryptCompare s h k => (k (lib_bcrypt_compare lib s h), w)
  | RandomBytesHex n k => (k (lib_random_hex lib n (entropy w)), tick w)
  | JwtSign p e k => (k (lib_jwt_sign lib p e (now w)), w)
  | JwtVerify t k => (k (lib_jwt_verify lib t (now w)), w)
  | ReadCachedUserIdColumn k => (k (cachedUserIdColumn w), w)
  | WriteCachedUserIdColumn c k => (k, with_cache w (Some c))
  end.

(** A whole handler, alone. *)
Fixpoint run {A : Type} (p : prog A) (w : world) : A * world :=
  match p with
  | Ret a => (a, w)
  | Connect k => run (k (conn_error w)) w
  | Query q k => let '(r, w') := pg_query q w in run (k r) w'
  | Release k => run k w
  | BcryptHash s n k => run (k (inr (lib_bcrypt_hash lib s n (entropy w)))) (tick w)
  | BcryptCompare s h k => run (k (lib_bcrypt_compare lib s h)) w
  | RandomBytesHex n k => run (k (lib_random_hex lib n (entropy w))) (tick w)
  | JwtSign p e k => run (k (lib_jwt_sign lib p e (now w))) w
  | JwtVerify t k => run (k (lib_jwt_verify lib t (now w))) w
  | ReadCachedUserIdColumn k => run (k (cachedUserIdColumn w)) w
  | WriteCachedUserIdColumn c k => run k (with_cache w (Some c))
  end.

(** The first [n] calls of a handler. *)
Fixpoint steps {A : Type} (n : nat) (p : prog A) (w : world) : prog A * world :=
  match n with
  | O => (p, w)
  | S m => let '(p', w') := step p w in steps m p' w'
  end.


End Run.

End Store.

(* ================================================================== *)
(** ** What a program may call                                          *)
(* ================================================================== *)

Module Calls.

(** No call to the pool or to the SQL client anywhere in the program,
    whatever the other collaborators answer. *)
Fixpoint store_free {A : Type} (p : prog A) : Prop :=
  match p with
  | Ret _ => True
  | Connect _ | Query _ _ | Release _ => False
  | BcryptHash _ _ k => forall r, store_free (k r)
  | BcryptCompare _ _ k => forall r, store_free (k r)
  | RandomBytesHex _ k => forall r, store_free (k r)
  | JwtSign _ _ k => forall r, store_free (k r)
  | JwtVerify _ k => forall r, store_free (k r)
  | ReadCachedUserIdColumn k => forall r, store_free (k r)
  | WriteCachedUserIdColumn _ k => store_free k
  end.

(** Every statement the program can send satisfies [P], whatever the
    collaborators answer. *)
Fixpoint every_query {A : Type} (P : query -> Prop) (p : prog A) : Prop :=
  match p with
  | Ret _ => True
  | Connect k => forall r, every_query P (k r)
  | Query q k => P q /\ forall r, every_query P (k r)
  | Release k => every_query P k
  | BcryptHash _ _ k => forall r, every_query P (k r)
  | BcryptCompare _ _ k => forall r, every_query P (k r)
  | RandomBytesHex _ k => forall r, every_query P (k r)
  | JwtSign _ _ k => forall r, every_query P (k r)
  | JwtVerify _ k => forall r, every_query P (k r)
  | ReadCachedUserIdColumn k => forall r, every_query P (k r)
  | WriteCachedUserIdColumn _ k => every_query P k
  end.

(** Every result the program can end in satisfies [P], whatever the
    collaborators answer. *)
Fixpoint every_result {A : Type} (P : A -> Prop) (p : prog A) : Prop :=
  match p with
  | Ret a => P a
  | Connect k => forall r, every_result P (k r)
  | Query _ k => forall r, every_result P (k r)
  | Release k => every_result P k
  | BcryptHash _ _ k => forall r, every_result P (k r)
  | BcryptCompare _ _ k => forall r, every_result P (k r)
  | RandomBytesHex _ k => forall r, every_result P (k r)
  | JwtSign _ _ k => forall r, every_result P (k r)
  | JwtVerify _ k => forall r, every_result P (k r)
  | ReadCachedUserIdColumn k => forall r, every_result P (k r)
  | WriteCachedUserIdColumn _ k => every_result P k
  end.



(** Whenever a call of the program throws, what the program answers from
    there on satisfies [P] of the error thrown. *)
Fixpoint catches {A : Type} (P : error -> A -> Prop) (p : prog A) : Prop :=
  match p with
  | Ret _ => True
  | Connect k => (forall e, every_result (P e) (k (Some e))) /\ catches P (k None)
  | Query _ k =>
      (forall e, every_result (P e) (k (inl e))) /\ forall r, catches P (k (inr r))
  | Release k => catches P k
  | BcryptHash _ _ k =>
      (forall e, every_result (P e) (k (inl e))) /\ forall r, catches P (k (inr r))
  | BcryptCompare _ _ k =>
      (forall e, every_result (P e) (k (inl e))) /\ forall r, catches P (k (inr r))
  | RandomBytesHex _ k => forall r, catches P (k r)
  | JwtSign _ _ k =>
      (forall e, every_result (P e) (k (inl e))) /\ forall r, catches P (k (inr r))
  | JwtVerify _ k =>
      (forall e, every_result (P e) (k (inl e))) /\ forall r, catches P (k (inr r))
  | ReadCachedUserIdColumn k => forall r, catches P (k r)
  | WriteCachedUserIdColumn _ k => catches P k
  end.

End Calls.

(* ================================================================== *)
(** ** A concrete deployment, for running the handlers                  *)
(* ================================================================== *)

Module Demo.

Import Store.

(** Stand-ins for the libraries: a hash that is recognisable, a
    comparison that rejects non-strings as bcryptjs does, and tokens
    [jwt.<id>] with [expired] and anything else refused. *)
Definition toy_library : library :=
  Library
    (fun s _ _ => ("$2a$10$" ++ s)%string)
    (fun s h =>
       match s, h with
       | JString p, JString hh => inr (hh =? ("$2a$10$" ++ p)%string)
       | _, _ => inl (new_Error "Illegal arguments")
       end)
    (fun _ _ => "000102030405060708090a0b0c0d0e0f")
    (fun p _ _ => match ToString (get p "userId") with
                  | Some id => inr ("jwt." ++ id)%string
                  | None => inl (new_Error "invalid payload")
                  end)
    (fun t _ =>
       if prefix "jwt." t
       then inr (JObject [("userId", JString (substring 4 (String.length t - 4) t))])
       else if t =? "expired"
            then inl (Error "TokenExpiredError" None (Some "jwt expired") None)
            else inl (Error "JsonWebTokenError" None (Some "jwt malformed") None)).

(** The input conversion of a text column. *)
Definition text_input (x : string) : error + string := inr x.

(** The input conversion of a four-byte integer column: blanks around,
    an optional sign, digits; a text that writes no integer, or one out
    of range, is refused. *)
Definition is_blank (c : ascii) : bool :=
  let n := nat_of_ascii c in
  ((n =? 32) || ((9 <=? n) && (n <=? 13)))%nat.

Fixpoint skip_blanks (s : string) : string :=
  match s with
  | String c r => if is_blank c then skip_blanks r else s
  | EmptyString => EmptyString
  end.

Fixpoint read_digits (s : string) (acc : N) (seen : bool) : option N :=
  match s with
  | EmptyString => if seen then Some acc else None
  | String c r =>
      let n := nat_of_ascii c in
      if ((48 <=? n) && (n <=? 57))%nat
      then read_digits r (acc * 10 + N.of_nat (n - 48))%N true
      else if seen && (skip_blanks s =? EmptyString) then Some acc else None
  end.

Definition integer_input (x : string) : error + string :=
  let s := skip_blanks x in
  let '(negative, digits) :=
    match s with
    | String "-" r => (true, r)
    | String "+" r => (false, r)
    | _ => (false, s)
    end in
  match read_digits digits 0 false with
  | Some n =>
      let z := if negative then (- Z.of_N n)%Z else Z.of_N n in
      if ((-2147483648 <=? z) && (z <=? 2147483647))%Z
      then inr (NilZero.string_of_int (Z.to_int z))
      else inl (Error "error" (Some "22003")
                      (Some ("value " ++ dquote ++ x ++ dquote
                             ++ " is out of range for type integer")%string)
                      None)
  | None =>
      inl (Error "error" (Some "22P02")
                 (Some ("invalid input syntax for type integer: "
                        ++ dquote ++ x ++ dquote)%string)
                 None)
  end.

(** The users table as [ensureSchema] creates it, empty. *)
Definition fresh : world :=
  World None ["user_id"; "email"; "name"; "password_hash"; "created_at"] true
        [] 1 [] [] [] text_input text_input 1000 None 0.

(** A users table carrying both name columns, with one account. *)
Definition both_names : world :=
  World None ["id"; "email"; "full_name"; "name"; "password_hash"] true
        [[("id", num 7); ("email", JString "a@x.com");
          ("full_name", JString "Ann"); ("name", JString "Ann");
          ("password_hash", JString "$2a$10$secret1")]]
        8 [] [] [] text_input text_input 1000 None 0.


(** One booking of user 5 for room 3, current, with a valid token; the
    user identifier is kept in an integer column, the QR code in a text
    column. *)
Definition stay : world :=
  World None ["user_id"; "email"] true [] 1
        [Booking (num 11) (num 5) (num 3) (JString "confirmed")
                 (Some 900%Z) (Some 1100%Z)]
        [Room (num 3) (JString "QR-3")]
        [BookingToken (JString "tok-1") (num 11) (Some true) (JString "sig-1")]
        integer_input text_input 1000 None 0.

Definition post (fields : object) : request :=
  Request None (JObject fields) JUndefined.

Definition as_user (uid : jsval) (fields : object) : request :=
  Request None (JObject fields) (JObject [("userId", uid)]).

End Demo.

(* ================================================================== *)
(** ** Vocabulary of the statements                                     *)
(* ================================================================== *)

Module Spec.

Import AuthController AuthMiddleware Server Store Calls.

(** The e-mail [register] and [login] work with,
    [String(email).toLowerCase()], when the conversion does not throw. *)
Definition normalized_email (email : jsval) : option string :=
  option_map toLowerCase (ToString email).






(** No space in a header segment. *)
Fixpoint no_space (s : string) : Prop :=
  match s with
  | EmptyString => True
  | String c r => c <> " "%char /\ no_space r
  end.

(** The decoded payload of a request the middleware lets through: the header is
    there, it has a second segment, and that segment verifies. *)
Definition accepted (lib : library) (w : world) (req : request) : option jsval :=
  match authorization req with
  | None => None
  | Some h =>
      match nth_error (split " " h) 1 with
      | None => None
      | Some tok =>
          if tok =? EmptyString then None
          else match lib_jwt_verify lib tok (now w) with
               | inr decoded => Some decoded
               | inl _ => None
               end
      end
  end.


(** A register request the validation of [register] turns down: e-mail or
    password missing, or a password that is not a string of six
    characters at least. *)
Definition invalid_registration (req : request) : Prop :=
  let b := or_else (body req) (JObject []) in
  truthy (get b "email") = false
  \/ truthy (get b "password") = false
  \/ match get b "password" with
     | JString pw => (String.length pw < 6)%nat
     | _ => True
     end.


(** The column [getUserIdColumn] answers with in a world. *)
Definition id_column (w : world) : string :=
  if truthy (opt_val (cachedUserIdColumn w))
  then string_of (opt_val (cachedUserIdColumn w))
  else match id_columns w with
       | c :: _ => c
       | [] => "user_id"
       end.

(** The world after [getUserIdColumn]: the cache is filled on first use. *)
Definition id_cached (w : world) : world :=
  if truthy (opt_val (cachedUserIdColumn w)) then w
  else with_cache w (Some (id_column w)).

(** The display-name expression for the columns of a world. *)
Definition name_expr (w : world) : string :=
  if mem "full_name" (users_columns w) && mem "name" (users_columns w)
  then "COALESCE(full_name, name)"
  else if mem "full_name" (users_columns w) then "full_name"
  else if mem "name" (users_columns w) then "name"
  else "NULL".

(** The created-at expression for the columns of a world. *)
Definition created_expr (w : world) : string :=
  if mem "created_at" (users_columns w) then "created_at" else "NOW()".


(** The first users row stored under an e-mail. *)
Definition find_user (w : world) (email : string) : option row :=
  find (fun r => sql_eq (lookup "email" r) (JString email)) (users w).






Section Race.

Variable lib : library.
Variable columns : list string.
Variable email : string.



End Race.




End Spec.

(* ================================================================== *)
(** ** The serverless entry point                                       *)
(* ================================================================== *)

Module Vercel.

(** The rewriting of [req.url] in the exported handler:
    [if (!req.url.startsWith('/api'))
       req.url = req.url === '/' ? '/api' : `/api${req.url}`]. *)
Definition rewrite_url (url : string) : string :=
  if negb (prefix "/api" url)
  then (if url =? "/" then "/api" else "/api" ++ url)%string
  else url.

End Vercel.

(* ================================================================== *)
(** ** Conduct of the handlers                                          *)
(* ================================================================== *)

Module Conduct.

Import AuthController AuthMiddleware Server Store Calls Spec.

(** The body of a [try] block run on a client: it neither takes nor
    gives back a connection. *)
Fixpoint on_client {A : Type} (p : prog A) : Prop :=
  match p with
  | Ret _ => True
  | Connect _ | Release _ => False
  | Query _ k => forall r, on_client (k r)
  | BcryptHash _ _ k => forall r, on_client (k r)
  | BcryptCompare _ _ k => forall r, on_client (k r)
  | RandomBytesHex _ k => forall r, on_client (k r)
  | JwtSign _ _ k => forall r, on_client (k r)
  | JwtVerify _ k => forall r, on_client (k r)
  | ReadCachedUserIdColumn k => forall r, on_client (k r)
  | WriteCachedUserIdColumn _ k => on_client k
  end.

(** The connection discipline, [held] telling whether the handler has a
    client: a connection is asked for only when none is held, statements
    go to a held client only, a client is released only when held, and
    the handler ends with none held, whatever the collaborators answer;
    a failed [pool.connect()] leaves none held. *)
Fixpoint leased {A : Type} (held : bool) (p : prog A) : Prop :=
  match p with
  | Ret _ => held = false
  | Connect k =>
      held = false /\ (forall e, leased false (k (Some e))) /\ leased true (k None)
  | Query _ k => held = true /\ forall r, leased true (k r)
  | Release k => held = true /\ leased false k
  | BcryptHash _ _ k => forall r, leased held (k r)
  | BcryptCompare _ _ k => forall r, leased held (k r)
  | RandomBytesHex _ k => forall r, leased held (k r)
  | JwtSign _ _ k => forall r, leased held (k r)
  | JwtVerify _ k => forall r, leased held (k r)
  | ReadCachedUserIdColumn k => forall r, leased held (k r)
  | WriteCachedUserIdColumn _ k => leased held k
  end.

(** A statement that only reads. *)
Definition reads (q : query) : Prop :=
  match q with
  | QInsertUser _ _ | QUpdateUser _ _ _ _ => False
  | _ => True
  end.

(** A statement that reads or inserts one users row. *)
Definition reads_or_inserts (q : query) : Prop :=
  match q with
  | QUpdateUser _ _ _ _ => False
  | _ => True
  end.

(** A statement that reads, or updates name columns only. *)
Definition reads_or_renames (q : query) : Prop :=
  match q with
  | QInsertUser _ _ => False
  | QUpdateUser sets _ _ _ =>
      forall c, In c (map fst sets) -> c = "full_name" \/ c = "name"
  | _ => True
  end.

(** The response envelope: a status among [allowed], and a [success]
    field that is [true] exactly for the 2xx statuses. *)
Definition envelope (allowed : list Z) (r : response) : Prop :=
  In (status r) allowed
  /\ lookup "success" (json r) = JBool ((200 <=? status r)%Z && (status r <? 300)%Z).

(** The display name of a users row: [full_name] when the table has it
    and, if the table has [name] too, when it is not [NULL]; else [name]
    when the table has it; else [NULL]. *)
Definition display_name (w : world) (u : row) : jsval :=
  if mem "full_name" (users_columns w)
  then (if mem "name" (users_columns w)
        then (if sql_null (lookup "full_name" u) then lookup "name" u
              else lookup "full_name" u)
        else lookup "full_name" u)
  else if mem "name" (users_columns w) then lookup "name" u
  else JNull.

(** The creation time of a users row: the column when the table has it,
    the present instant otherwise. *)
Definition creation_time (w : world) (u : row) : jsval :=
  if mem "created_at" (users_columns w) then lookup "created_at" u
  else num (now w).

(** What [getMe] answers for a users row. *)
Definition me_response (w : world) (u : row) : response :=
  Response 200
    [("success", JBool true);
     ("user", JObject [("id", lookup (id_column w) u);
                       ("email", lookup "email" u);
                       ("name", display_name w u);
                       ("createdAt", creation_time w u)])].

(** The first users row of the principal. *)
Definition find_principal (w : world) (userId : jsval) : option row :=
  find (fun r => sql_eq (lookup (id_column w) r) userId) (users w).

(** No [@] in a string. *)
Fixpoint no_at (s : string) : Prop :=
  match s with
  | EmptyString => True
  | String c r => c <> "@"%char /\ no_at r
  end.

(** The five columns [register] may write. *)
Definition insertable : list string :=
  ["email"; "full_name"; "name"; "password_hash"; "aadhaar_key"].

(** Two worlds with the same store, pool and clock: they may differ
    only in the cached id column and in the randomness used up. *)
Definition same_store (w w' : world) : Prop :=
  conn_error w' = conn_error w
  /\ users_columns w' = users_columns w
  /\ id_listed_first w' = id_listed_first w
  /\ user_id_input w' = user_id_input w
  /\ qr_code_input w' = qr_code_input w
  /\ users w' = users w
  /\ next_user_id w' = next_user_id w
  /\ bookings w' = bookings w
  /\ rooms w' = rooms w
  /\ booking_tokens w' = booking_tokens w
  /\ now w' = now w.

(** A users row after a profile update: nothing but the name columns
    may differ. *)
Definition renamed (r r' : row) : Prop :=
  forall c, c <> "full_name" -> c <> "name" -> lookup c r' = lookup c r.

End Conduct.

(* ================================================================== *)
(** ** Properties                                                       *)
(* ================================================================== *)

Import AuthController AuthMiddleware Server Store Calls Spec Demo.

(** *** The catalog and the adapter's expressions *)


Lemma set_has_catalog w keep c :
  set_has (column_names (catalog w keep)) c = keep c && mem c (users_columns w).
Proof.
  unfold catalog, column_names.
  induction (users_columns w) as [|x l IH]; simpl.
  - now rewrite andb_false_r.
  - rewrite String.eqb_sym.
    destruct (keep x) eqn:Hk; simpl; rewrite IH; clear IH.
    + destruct (String.eqb_spec x c) as [->|Hne]; simpl.
      * now rewrite Hk.
      * reflexivity.
    + destruct (String.eqb_spec x c) as [->|Hne]; simpl.
      * now rewrite Hk.
      * reflexivity.
Qed.


Lemma catalog_nonempty w keep :
  (0 <? length (catalog w keep))%nat = existsb keep (users_columns w).
Proof.
  unfold catalog. induction (users_columns w) as [|x l IH]; simpl; [reflexivity|].
  destruct (keep x); simpl; [reflexivity | exact IH].
Qed.

Lemma mem_existsb c l : existsb (fun x => x =? c) l = mem c l.
Proof.
  unfold mem. induction l as [|x l IH]; simpl; [reflexivity|].
  now rewrite IH, String.eqb_sym.
Qed.

(** C7. For every column set of the users table, the display-name
    expression is [COALESCE(full_name, name)] when both columns exist,
    the one that exists when exactly one does, and [NULL] when neither
    does; the created-at expression is [created_at] when that column
    exists and the literal [NOW()] otherwise. *)
Theorem adapter_expressions (lib : library) (w : world) :
  fst (run lib getNameExpr w)
  = inr (if mem "full_name" (users_columns w) && mem "name" (users_columns w)
         then "COALESCE(full_name, name)"
         else if mem "full_name" (users_columns w) then "full_name"
         else if mem "name" (users_columns w) then "name"
         else "NULL")
  /\ fst (run lib getCreatedAtExpr w)
     = inr (if mem "created_at" (users_columns w) then "created_at" else "NOW()").
Proof.
  split.
  - unfold getNameExpr, nameExprOf. cbn [run and_then bind query_ pg_query fst ret].
    now rewrite !set_has_catalog.
  - unfold getCreatedAtExpr. cbn [run and_then bind query_ pg_query fst ret].
    now rewrite catalog_nonempty, mem_existsb.
Qed.

(** *** Validation in [register] *)

(** What follows a part of a handler that always answers. *)
Lemma run_answered (lib : library) (p : prog response) : forall w,
  run lib (answered p) w = (Some (fst (run lib p w)), snd (run lib p w)).
Proof.
  unfold answered.
  induction p as [a|k IH|q k IH|k IH|s n k IH|s h k IH|n k IH|pl e k IH|t k IH|k IH|c k IH];
    intros w; cbn [bind run fst snd]; auto.
  destruct (pg_query q w) as [r w']. apply IH.
Qed.

(** C5. A register request whose e-mail or password is missing is answered
    400 with the message [Email and password required]; one that has
    both, with a password that is not a string of at least six
    characters, is answered 400 with the message
    [Password must be at least 6 characters]; in both cases the handler
    makes no call to the pool or the SQL client, and the store is as it
    was. *)
Theorem register_validation_atomic (NODE_ENV : option string) (req : request) :
  invalid_registration req ->
  let b := or_else (body req) (JObject []) in
  let msg := if negb (truthy (get b "email")) || negb (truthy (get b "password"))
             then "Email and password required"
             else "Password must be at least 6 characters" in
  register NODE_ENV req = Ret (Some (bad_request msg))
  /\ status (bad_request msg) = 400%Z
  /\ json (bad_request msg) = [("success", JBool false); ("message", JString msg)]
  /\ store_free (register NODE_ENV req)
  /\ forall lib w, run lib (register NODE_ENV req) w = (Some (bad_request msg), w).
Proof.
  intros H b msg. unfold invalid_registration in H. cbv zeta in H. fold b in H.
  assert (Hreg : register NODE_ENV req = Ret (Some (bad_request msg))).
  { subst msg. unfold register. fold b.
    destruct (truthy (get b "email")) eqn:He;
      destruct (truthy (get b "password")) eqn:Hp; cbn [negb orb]; try reflexivity.
    destruct H as [H|[H|H]]; try discriminate.
    destruct (get b "password") as [| |b0|n|pw|xs|o]; try reflexivity.
    apply Nat.ltb_lt in H. now rewrite H. }
  rewrite Hreg. repeat split.
Qed.

Lemma register_validation_atomic_witness :
  let req := post [("email", JString "a@x.com"); ("password", JString "abc")] in
  register None req = Ret (Some (bad_request "Password must be at least 6 characters"))
  /\ status (bad_request "Password must be at least 6 characters") = 400%Z
  /\ json (bad_request "Password must be at least 6 characters")
     = [("success", JBool false);
        ("message", JString "Password must be at least 6 characters")]
  /\ store_free (register None req)
  /\ forall lib w,
       run lib (register None req) w
       = (Some (bad_request "Password must be at least 6 characters"), w).
Proof.
  apply (register_validation_atomic None
           (post [("email", JString "a@x.com"); ("password", JString "abc")])).
  right; right. simpl. lia.
Defined.

(** *** The access middleware *)

Lemma split_no_space s : no_space s -> split " " s = [s].
Proof.
  induction s as [|c r IH]; simpl; [reflexivity|].
  intros [Hc Hr]. rewrite (IH Hr).
  destruct (Ascii.eqb_spec c " "%char); [contradiction | reflexivity].
Qed.

Lemma split_scheme s t :
  no_space s -> split " " (s ++ String " "%char t) = s :: split " " t.
Proof.
  induction s as [|c r IH]; simpl; [reflexivity|].
  intros [Hc Hr]. rewrite (IH Hr).
  destruct (Ascii.eqb_spec c " "%char); [contradiction | reflexivity].
Qed.

Lemma eqb_empty_false s : s <> EmptyString -> (s =? EmptyString) = false.
Proof. intros H. now apply String.eqb_neq. Qed.

(** C4. The middleware answers 401 without calling the handler when the header
    is missing, when it has no second segment, when verification fails
    with expiry and when it fails otherwise; exactly when verification
    succeeds the decoded payload becomes [req.user] and the handler runs.
    The middleware itself never calls the pool or the SQL client. *)
Theorem verifyToken_guards_handler (lib : library) (w : world) (req : request) :
  (authorization req = None -> forall next, verifyToken req next = Ret no_token)
  /\ (forall h, authorization req = Some h -> h <> EmptyString ->
        token_of h = None \/ token_of h = Some EmptyString ->
        forall next, verifyToken req next = Ret invalid_format)
  /\ (forall h tok e, authorization req = Some h -> token_of h = Some tok ->
        tok <> EmptyString -> lib_jwt_verify lib tok (now w) = inl e ->
        forall next,
          run lib (verifyToken req next) w
          = (if err_name e =? "TokenExpiredError" then token_expired
             else invalid_token e, w))
  /\ (forall next,
        match accepted lib w req with
        | Some decoded =>
            run lib (verifyToken req next) w = run lib (next (set_user req decoded)) w
            /\ user (set_user req decoded) = decoded
        | None =>
            exists resp, status resp = 401%Z
              /\ forall next', run lib (verifyToken req next') w = (resp, w)
        end)
  /\ (forall next, (forall r, store_free (next r)) -> store_free (verifyToken req next)).
Proof.
  unfold verifyToken, accepted, token_of.
  repeat split.
  - intros ->. reflexivity.
  - intros h -> Hne [Hn|Hn] next; rewrite (eqb_empty_false _ Hne), Hn; reflexivity.
  - intros h tok e -> Htok Hne Hv next.
    destruct (String.eqb_spec h EmptyString) as [->|_]; [discriminate|].
    rewrite Htok, (eqb_empty_false _ Hne). cbn [run]. rewrite Hv.
    destruct (err_name e =? "TokenExpiredError"); reflexivity.
  - intros next. destruct (authorization req) as [h|].
    2:{ exists no_token. split; reflexivity. }
    destruct (String.eqb_spec h EmptyString) as [->|_].
    { exists no_token. split; reflexivity. }
    destruct (nth_error (split " " h) 1) as [tok|].
    2:{ exists invalid_format. split; reflexivity. }
    destruct (tok =? EmptyString).
    { exists invalid_format. split; reflexivity. }
    cbn [run]. destruct (lib_jwt_verify lib tok (now w)) as [e|decoded];
      [|split; reflexivity].
    destruct (err_name e =? "TokenExpiredError").
    + exists token_expired. split; reflexivity.
    + exists (invalid_token e). split; reflexivity.
  - intros next Hnext. destruct (authorization req) as [h|]; [|exact I].
    destruct (h =? EmptyString); [exact I|].
    destruct (nth_error (split " " h) 1) as [tok|]; [|exact I].
    destruct (tok =? EmptyString); [exact I|].
    cbn [store_free]. intros [e|decoded]; [|apply Hnext].
    destruct (err_name e =? "TokenExpiredError"); exact I.
Qed.

(** C9. The scheme of the header is never looked at: for a header
    [<scheme> <token>], whatever the scheme, the second segment is what
    is verified and, when it verifies, the request goes on to the handler
    authenticated: [req.user] is the decoded payload, header and body are
    as they came, and the store is as it was when the handler starts; a
    header of one segment, with no space, is answered 401 with the
    invalid-format message. *)
Theorem scheme_is_not_checked (lib : library) (w : world) (req : request) :
  (forall scheme token,
     no_space scheme -> no_space token -> token <> EmptyString ->
     authorization req = Some (scheme ++ " " ++ token)%string ->
     forall next,
       (exists k, verifyToken req next = JwtVerify token k)
       /\ (forall decoded, lib_jwt_verify lib token (now w) = inr decoded ->
            accepted lib w req = Some decoded
            /\ run lib (verifyToken req next) w
               = run lib (next (set_user req decoded)) w
            /\ user (set_user req decoded) = decoded
            /\ authorization (set_user req decoded) = authorization req
            /\ body (set_user req decoded) = body req)
       /\ (forall e, lib_jwt_verify lib token (now w) = inl e ->
            accepted lib w req = None
            /\ status (fst (run lib (verifyToken req next) w)) = 401%Z))
  /\ (forall h, no_space h -> h <> EmptyString -> authorization req = Some h ->
        forall next,
          verifyToken req next = Ret invalid_format
          /\ status invalid_format = 401%Z
          /\ lookup "message" (json invalid_format) = JString "❌ Invalid token format").
Proof.
  split.
  - intros scheme token Hs Ht Hne Hh next.
    assert (Hsplit : token_of (scheme ++ " " ++ token) = Some token).
    { unfold token_of.
      change (scheme ++ " " ++ token)%string with (scheme ++ String " "%char token)%string.
      rewrite (split_scheme _ _ Hs), (split_no_space _ Ht).
      reflexivity. }
    assert (Hh0 : ((scheme ++ " " ++ token) =? EmptyString) = false).
    { destruct scheme; reflexivity. }
    assert (Hacc : accepted lib w req
                   = match lib_jwt_verify lib token (now w) with
                     | inr d => Some d
                     | inl _ => None
                     end).
    { unfold accepted. unfold token_of in Hsplit.
      now rewrite Hh, Hsplit, (eqb_empty_false _ Hne). }
    rewrite Hacc. unfold verifyToken.
    rewrite Hh, Hh0, Hsplit, (eqb_empty_false _ Hne).
    split; [|split].
    + eexists. reflexivity.
    + intros decoded Hv. cbn [run]. rewrite Hv. repeat split. exact Hh.
    + intros e Hv. cbn [run]. rewrite Hv. split; [reflexivity|].
      destruct (err_name e =? "TokenExpiredError"); reflexivity.
  - intros h Hs Hne Hh next. unfold verifyToken, token_of.
    rewrite Hh, (eqb_empty_false _ Hne), (split_no_space _ Hs).
    repeat split.
Qed.

Lemma verifyToken_guards_handler_witness :
  run toy_library
      (verifyToken (Request (Some "Bearer expired") JUndefined JUndefined) getMe)
      both_names
  = (token_expired, both_names).
Proof.
  apply (proj1 (proj2 (proj2
           (verifyToken_guards_handler toy_library both_names
              (Request (Some "Bearer expired") JUndefined JUndefined))))
           "Bearer expired" "expired"
           (Error "TokenExpiredError" None (Some "jwt expired") None));
    try reflexivity.
  discriminate.
Defined.

Lemma scheme_is_not_checked_witness :
  let req := Request (Some "Basic jwt.7") JUndefined JUndefined in
  let decoded := JObject [("userId", JString "7")] in
  accepted toy_library both_names req = Some decoded
  /\ run toy_library (verifyToken req getMe) both_names
     = run toy_library (getMe (set_user req decoded)) both_names
  /\ user (set_user req decoded) = decoded
  /\ authorization (set_user req decoded) = authorization req
  /\ body (set_user req decoded) = body req.
Proof.
  refine (proj1 (proj2 (proj1 (scheme_is_not_checked toy_library both_names
                                 (Request (Some "Basic jwt.7") JUndefined JUndefined))
                          "Basic" "jwt.7" _ _ _ eq_refl getMe))
            (JObject [("userId", JString "7")]) eq_refl).
  - simpl. repeat split; discriminate.
  - simpl. repeat split; discriminate.
  - discriminate.
Defined.

(** *** Running the adapter's lookups inside a handler *)

Section Adapter.

Variable lib : library.

Lemma id_columns_In w c :
  In c (id_columns w) ->
  (c = "id" \/ c = "user_id") /\ mem c (users_columns w) = true.
Proof.
  unfold id_columns. intros H.
  assert (H' : In c (filter (String.eqb "id") (users_columns w))
               \/ In c (filter (String.eqb "user_id") (users_columns w))).
  { destruct (id_listed_first w); apply in_app_or in H; tauto. }
  destruct H' as [H'|H']; apply filter_In in H'; destruct H' as [Hin Hc];
    apply String.eqb_eq in Hc; subst c; (split; [tauto|]);
    unfold mem; apply existsb_exists; eexists; (split; [exact Hin | apply String.eqb_refl]).
Qed.

Lemma id_columns_truthy w c :
  In c (id_columns w) ->
  string_of (or_else (JString c) (JString "user_id")) = c.
Proof.
  intros H. apply id_columns_In in H. destruct H as [[-> | ->] _]; reflexivity.
Qed.

Lemma run_getUserIdColumn {A B : Type} (k : string -> try_ A)
    (f : error + A -> prog B) (w : world) :
  run lib (bind (and_then getUserIdColumn k) f) w
  = run lib (bind (k (id_column w)) f) (id_cached w).
Proof.
  unfold getUserIdColumn, and_then, id_cached, id_column.
  cbn [bind run]. destruct (truthy (opt_val (cachedUserIdColumn w))); [reflexivity|].
  cbn [bind run query_ pg_query ret].
  destruct (id_columns w) as [|c rest] eqn:Hf.
  - reflexivity.
  - cbn [map lookup]. cbn [String.eqb Ascii.eqb Bool.eqb].
    rewrite (id_columns_truthy w c); [reflexivity|].
    rewrite Hf. now left.
Qed.

Lemma run_getNameExpr {A B : Type} (k : string -> try_ A)
    (f : error + A -> prog B) (w : world) :
  run lib (bind (and_then getNameExpr k) f) w = run lib (bind (k (name_expr w)) f) w.
Proof.
  unfold getNameExpr, and_then, name_expr, nameExprOf.
  cbn [bind run query_ pg_query ret]. now rewrite !set_has_catalog.
Qed.

Lemma run_getCreatedAtExpr {A B : Type} (k : string -> try_ A)
    (f : error + A -> prog B) (w : world) :
  run lib (bind (and_then getCreatedAtExpr k) f) w
  = run lib (bind (k (created_expr w)) f) w.
Proof.
  unfold getCreatedAtExpr, and_then, created_expr.
  cbn [bind run query_ pg_query ret]. now rewrite catalog_nonempty, mem_existsb.
Qed.

End Adapter.

Lemma missing_none w cs :
  forallb (fun c => mem c (users_columns w)) cs = true -> missing_column w cs = None.
Proof.
  unfold missing_column. induction cs as [|c cs IH]; simpl; [reflexivity|].
  intros H. apply andb_true_iff in H. destruct H as [Hc Hcs].
  rewrite Hc. simpl. now apply IH.
Qed.

Lemma name_expr_columns w :
  forallb (fun c => mem c (users_columns w)) (expr_columns (name_expr w)) = true.
Proof.
  unfold name_expr.
  destruct (mem "full_name" (users_columns w)) eqn:Hf;
    destruct (mem "name" (users_columns w)) eqn:Hn; cbn; rewrite ?Hf, ?Hn; reflexivity.
Qed.

Lemma created_expr_columns w :
  forallb (fun c => mem c (users_columns w)) (expr_columns (created_expr w)) = true.
Proof.
  unfold created_expr.
  destruct (mem "created_at" (users_columns w)) eqn:Hc; cbn; rewrite ?Hc; reflexivity.
Qed.

Lemma forallb_app_true {A : Type} (f : A -> bool) l1 l2 :
  forallb f l1 = true -> forallb f l2 = true -> forallb f (l1 ++ l2) = true.
Proof. intros H1 H2. rewrite forallb_app, H1, H2. reflexivity. Qed.

Lemma find_none_filter {A : Type} (f : A -> bool) l :
  find f l = None -> filter f l = [].
Proof.
  induction l as [|x l IH]; simpl; [reflexivity|].
  destruct (f x); [discriminate | exact IH].
Qed.

Lemma find_some_filter {A : Type} (f : A -> bool) l u :
  find f l = Some u -> exists rest, filter f l = u :: rest.
Proof.
  induction l as [|x l IH]; simpl; [discriminate|].
  destruct (f x).
  - intros [= ->]. eexists. reflexivity.
  - exact IH.
Qed.

Lemma id_cached_columns w : users_columns (id_cached w) = users_columns w.
Proof. unfold id_cached. now destruct (truthy _). Qed.

Lemma id_cached_users w : users (id_cached w) = users w.
Proof. unfold id_cached. now destruct (truthy _). Qed.

(** *** Login failures *)

Lemma filter_head_find {A : Type} (f : A -> bool) l u rest :
  filter f l = u :: rest -> find f l = Some u.
Proof.
  induction l as [|x l IH]; simpl; [discriminate|].
  destruct (f x); [now intros [= -> _] | exact IH].
Qed.

Lemma filter_nil_find {A : Type} (f : A -> bool) l :
  filter f l = [] -> find f l = None.
Proof.
  induction l as [|x l IH]; simpl; [reflexivity|].
  destruct (f x); [discriminate | exact IH].
Qed.

Lemma id_cached_now w : now (id_cached w) = now w.
Proof. unfold id_cached. now destruct (truthy (opt_val (cachedUserIdColumn w))). Qed.

(** [login], run on a store that answers and has the columns it reads. *)
Lemma run_login (lib : library) (w : world) (req : request) (email : string) :
  let b := or_else (body req) (JObject []) in
  truthy (get b "email") = true -> truthy (get b "password") = true ->
  normalized_email (get b "email") = Some email ->
  conn_error w = None ->
  missing_column (id_cached w)
    (id_column w :: "email" :: expr_columns (name_expr (id_cached w))
     ++ ["password_hash"]) = None ->
  run lib (login req) w
  = match find_user w email with
    | None => (Some invalid_credentials, id_cached w)
    | Some u =>
        if truthy (lookup "password_hash" u)
        then match lib_bcrypt_compare lib (get b "password")
                     (lookup "password_hash" u) with
             | inl _ => (Some internal_error, id_cached w)
             | inr false => (Some invalid_credentials, id_cached w)
             | inr true =>
                 match lib_jwt_sign lib
                         (JObject [("userId", lookup (id_column w) u)])
                         "1h" (now w) with
                 | inl _ => (Some internal_error, id_cached w)
                 | inr tok =>
                     (Some (Response 200 [("success", JBool true);
                                          ("token", JString tok)]), id_cached w)
                 end
             end
        else (Some invalid_credentials, id_cached w)
    end.
Proof.
  intros b He Hp Hnorm Hconn Hmiss. unfold login. fold b. rewrite He, Hp. cbn [negb orb].
  unfold normalized_email in Hnorm.
  destruct (ToString (get b "email")) as [text|]; [|discriminate].
  injection Hnorm as Hnorm. rewrite Hnorm.
  assert (Hinner :
    run lib (with_client (login_try email (get b "password")) (fun _ => internal_error)) w
    = match find_user w email with
      | None => (invalid_credentials, id_cached w)
      | Some u =>
          if truthy (lookup "password_hash" u)
          then match lib_bcrypt_compare lib (get b "password")
                       (lookup "password_hash" u) with
               | inl _ => (internal_error, id_cached w)
               | inr false => (invalid_credentials, id_cached w)
               | inr true =>
                   match lib_jwt_sign lib
                           (JObject [("userId", lookup (id_column w) u)])
                           "1h" (now w) with
                   | inl _ => (internal_error, id_cached w)
                   | inr tok =>
                       (Response 200 [("success", JBool true);
                                      ("token", JString tok)], id_cached w)
                   end
               end
          else (invalid_credentials, id_cached w)
      end).
  { unfold with_client, login_try. cbn [run]. rewrite Hconn.
    rewrite run_getUserIdColumn, run_getNameExpr.
    unfold and_then at 1. cbn [bind run query_ pg_query]. rewrite Hmiss.
    rewrite id_cached_users. unfold find_user.
    match goal with
    | |- context [filter ?f (users w)] => set (rows := filter f (users w))
    end.
    destruct rows as [|u rest] eqn:Hrows; subst rows.
    - rewrite (filter_nil_find _ _ Hrows). reflexivity.
    - rewrite (filter_head_find _ _ _ _ Hrows).
      cbn [map lookup String.eqb Ascii.eqb Bool.eqb].
      destruct (truthy (lookup "password_hash" u)); [|reflexivity].
      unfold and_then, bcrypt_compare, jwt_sign. cbn [bind run].
      destruct (lib_bcrypt_compare lib (get b "password") (lookup "password_hash" u))
        as [e|[|]]; cbn [bind run negb]; try reflexivity.
      rewrite id_cached_now.
      destruct (lib_jwt_sign lib _ "1h" (now w)) as [e|tok]; reflexivity. }
  rewrite run_answered, Hinner.
  destruct (find_user w email) as [u|]; [|reflexivity].
  destruct (truthy (lookup "password_hash" u)); [|reflexivity].
  destruct (lib_bcrypt_compare lib (get b "password") (lookup "password_hash" u))
    as [e|[|]]; try reflexivity.
  destruct (lib_jwt_sign lib _ "1h" (now w)) as [e|tok]; reflexivity.
Qed.

Lemma login_columns w :
  forallb (fun c => mem c (users_columns w)) [id_column w; "email"; "password_hash"] = true ->
  missing_column (id_cached w)
    (id_column w :: "email" :: expr_columns (name_expr (id_cached w))
     ++ ["password_hash"]) = None.
Proof.
  intros Hcols. cbn [forallb] in Hcols. rewrite andb_true_r in Hcols.
  apply andb_true_iff in Hcols. destruct Hcols as [Hid Hcols].
  apply andb_true_iff in Hcols. destruct Hcols as [Hem Hph].
  apply missing_none. rewrite id_cached_columns. cbn [forallb].
  rewrite Hid, Hem. cbn [andb]. apply forallb_app_true.
  - unfold name_expr. rewrite id_cached_columns. apply name_expr_columns.
  - cbn. now rewrite Hph.
Qed.

(** C3, on the code.  [login] hands the password to [bcrypt.compare] as it
    came; [register] refuses a password that is not a string, [login]
    does not.  When [bcrypt.compare] throws on the password of a login
    for a known e-mail, as bcryptjs does on anything that is not a
    string, the answer is the 500 of the [catch] block, while the same
    password with an unknown e-mail is answered 401: the two failures
    are told apart. *)
Theorem login_nonstring_password_leaks
    (lib : library) (w : world) (known unknown : request)
    (email1 email2 : string) (u : row) (err : error) :
  let b1 := or_else (body known) (JObject []) in
  let b2 := or_else (body unknown) (JObject []) in
  get b2 "password" = get b1 "password" ->
  truthy (get b1 "password") = true ->
  is_string (get b1 "password") = false ->
  truthy (get b1 "email") = true ->
  truthy (get b2 "email") = true ->
  normalized_email (get b1 "email") = Some email1 ->
  normalized_email (get b2 "email") = Some email2 ->
  conn_error w = None ->
  forallb (fun c => mem c (users_columns w)) [id_column w; "email"; "password_hash"] = true ->
  find_user w email1 = Some u ->
  truthy (lookup "password_hash" u) = true ->
  find_user w email2 = None ->
  lib_bcrypt_compare lib (get b1 "password") (lookup "password_hash" u) = inl err ->
  fst (run lib (login known) w) = Some internal_error
  /\ fst (run lib (login unknown) w) = Some invalid_credentials
  /\ status internal_error = 500%Z
  /\ status invalid_credentials = 401%Z.
Proof.
  intros b1 b2 Hsame Hp Hns He1 He2 Hn1 Hn2 Hconn Hcols Hknown Hhash Hunknown Hthrow.
  pose proof (login_columns w Hcols) as Hmiss.
  assert (Hp2 : truthy (get b2 "password") = true) by now rewrite Hsame.
  pose proof (run_login lib w known email1 He1 Hp Hn1 Hconn Hmiss) as H1.
  pose proof (run_login lib w unknown email2 He2 Hp2 Hn2 Hconn Hmiss) as H2.
  fold b1 in H1. rewrite H1, H2, Hknown, Hunknown, Hhash, Hthrow.
  repeat split.
Qed.

Lemma login_nonstring_password_leaks_witness :
  let known := post [("email", JString "a@x.com"); ("password", JNumber "123456")] in
  let unknown := post [("email", JString "nobody@x.com"); ("password", JNumber "123456")] in
  fst (run toy_library (login known) both_names) = Some internal_error
  /\ fst (run toy_library (login unknown) both_names) = Some invalid_credentials
  /\ status internal_error = 500%Z
  /\ status invalid_credentials = 401%Z.
Proof.
  apply (login_nonstring_password_leaks toy_library both_names
           (post [("email", JString "a@x.com"); ("password", JNumber "123456")])
           (post [("email", JString "nobody@x.com"); ("password", JNumber "123456")])
           "a@x.com" "nobody@x.com"
           [("id", num 7); ("email", JString "a@x.com");
            ("full_name", JString "Ann"); ("name", JString "Ann");
            ("password_hash", JString "$2a$10$secret1")]
           (new_Error "Illegal arguments"));
    reflexivity.
Defined.

(** *** Profile updates *)


Lemma lookup_set_field_other k k' v r :
  k <> k' -> lookup k (set_field k' v r) = lookup k r.
Proof.
  intros Hne. induction r as [|[k0 v0] r IH]; simpl.
  - destruct (String.eqb_spec k' k); [congruence | reflexivity].
  - destruct (String.eqb_spec k0 k') as [->|Hk]; simpl.
    + destruct (String.eqb_spec k' k); [congruence|].
      reflexivity.
    + destruct (k0 =? k); [reflexivity | exact IH].
Qed.

Lemma Forall2_map_self {A : Type} (P : A -> A -> Prop) (f : A -> A) l :
  (forall x, P x (f x)) -> Forall2 P l (map f l).
Proof. intros H. induction l; simpl; constructor; auto. Qed.



Section UpdateProfile.
Variable lib : library.
Variable w : world.
Variable req : request.
Variable n : string.
Let userId := get (user req) "userId".
Hypothesis Huser : truthy userId = true.
Hypothesis Hname : get (or_else (body req) (JObject [])) "name" = JString n.
Hypothesis Hn : n <> EmptyString.
Hypothesis Hconn : conn_error w = None.
Hypothesis Hid : mem (id_column w) (users_columns w) = true.


End UpdateProfile.


Lemma every_result_bind {A B : Type} (P : B -> Prop) (m : prog A) (f : A -> prog B) :
  every_result (fun a => every_result P (f a)) m -> every_result P (bind m f).
Proof.
  induction m as [a|k IH|q k IH|k IH|s n k IH|s h k IH|n k IH|pl e k IH|t k IH|k IH|c k IH];
    cbn [every_result bind]; auto.
Qed.










(** *** Booking access *)







(** *** Registrations racing for one e-mail *)

(** Answering the calls one at a time and running the handler whole agree. *)
Lemma run_step {A : Type} (lib : library) (p : prog A) (w : world) :
  run lib p w = run lib (fst (step lib p w)) (snd (step lib p w)).
Proof.
  destruct p; cbn [run step fst snd]; try reflexivity.
  destruct (pg_query q w) as [r w']. reflexivity.
Qed.

Lemma run_steps {A : Type} (lib : library) (n : nat) : forall (p : prog A) (w : world),
  run lib p w = run lib (fst (steps lib n p w)) (snd (steps lib n p w)).
Proof.
  induction n as [|n IH]; intros p w; cbn [steps]; [reflexivity|].
  rewrite (run_step lib p w). destruct (step lib p w) as [p' w']. apply IH.
Qed.









Section RaceProofs.

Variable lib : library.
Variable columns : list string.
Variable email : string.
Variable NODE_ENV : option string.

Hypothesis Hemail : mem "email" columns = true.










End RaceProofs.




(** *** What reaches the store, and in which form *)






Lemma every_query_bind {A B : Type} (P : query -> Prop) (m : prog A) (f : A -> prog B) :
  every_query P m -> (forall a, every_query P (f a)) -> every_query P (bind m f).
Proof.
  intros Hm Hf.
  induction m as [a|k IH|q k IH|k IH|s n k IH|s h k IH|n k IH|pl e k IH|t k IH|k IH|c k IH];
    cbn [every_query bind] in *; auto.
  destruct Hm. split; auto.
Qed.








Section Sequential.

Variable lib : library.
Variable NODE_ENV : option string.


End Sequential.






(** *** The scenarios of the specification, run on the model *)

(** Register [a@x.com], log in as [A@X.com], read the profile with the
    token, then log in with a wrong password. *)
Example scenario_register_login_me :
  let w1 := snd (run toy_library
                   (register None (post [("email", JString "a@x.com");
                                         ("password", JString "secret1")])) fresh) in
  let w2 := snd (run toy_library
                   (login (post [("email", JString "A@X.com");
                                 ("password", JString "secret1")])) w1) in
  fst (run toy_library
         (register None (post [("email", JString "a@x.com");
                               ("password", JString "secret1")])) fresh) = Some created
  /\ fst (run toy_library
            (login (post [("email", JString "A@X.com"); ("password", JString "secret1")]))
            w1)
     = Some (Response 200 [("success", JBool true); ("token", JString "jwt.1")])
  /\ fst (run toy_library
            (route_me (Request (Some "Bearer jwt.1") JUndefined JUndefined)) w2)
     = Response 200 [("success", JBool true);
                     ("user", JObject [("id", num 1); ("email", JString "a@x.com");
                                       ("name", JString "a");
                                       ("createdAt", num 1000)])]
  /\ fst (run toy_library
            (login (post [("email", JString "A@X.com"); ("password", JString "wrong")]))
            w2)
     = Some invalid_credentials.
Proof. repeat split. Qed.

(** A QR code of a room booked by somebody else opens nothing, and
    neither does the right code sent inside an array, which the driver
    writes as an array literal; a user identifier that the integer
    column cannot read fails the statement. *)
Example scenario_foreign_qr :
  fst (run toy_library
         (verify_access (post [("user_id", num 6); ("qr_code_id", JString "QR-3")]))
         stay)
  = Some verification_failed
  /\ fst (run toy_library
            (verify_access (post [("user_id", num 5);
                                  ("qr_code_id", JArray [JString "QR-3"])]))
            stay)
     = Some verification_failed
  /\ option_map status
       (fst (run toy_library
               (verify_access (post [("user_id", JArray [num 5]);
                                     ("qr_code_id", JString "QR-3")]))
               stay))
     = Some 500%Z
  /\ fst (run toy_library
            (verify_access (post [("user_id", num 5); ("qr_code_id", JString "QR-3")]))
            stay)
     = Some (Response 200 [("success", JBool true); ("message", JString "Access granted!");
                           ("booking_token", JString "tok-1");
                           ("digital_signature", JString "sig-1")]).
Proof. repeat split. Qed.

(** A registration whose password has five characters writes nothing. *)
Example scenario_short_password :
  run toy_library
      (register None (post [("email", JString "a@x.com"); ("password", JString "12345")]))
      fresh
  = (Some (bad_request "Password must be at least 6 characters"), fresh).
Proof. reflexivity. Qed.

(** An e-mail that is an object with a [toString] key of its own makes
    [String(email)] throw: no response is written and the store is not
    reached; without that key the object registers as
    [[object object]]. *)
Example scenario_unprintable_email :
  run toy_library
      (register None (post [("email", JObject [("toString", num 1)]);
                            ("password", JString "secret1")]))
      fresh
  = (None, fresh)
  /\ run toy_library
         (login (post [("email", JArray [JObject [("toString", JNull)]]);
                       ("password", JString "secret1")]))
         fresh
     = (None, fresh)
  /\ exists row,
       run toy_library
           (register None (post [("email", JObject [("a", num 1)]);
                                 ("password", JString "secret1")]))
           fresh
       = (Some created, with_users (tick (tick fresh)) [row] 2)
       /\ lookup "email" row = JString "[object object]".
Proof. repeat split. eexists. split; reflexivity. Qed.

(** A name that is a number is kept by the text column as its numeral. *)
Example scenario_numeric_name :
  exists row,
    users (snd (run toy_library
                  (register None (post [("email", JString "a@x.com");
                                        ("password", JString "secret1");
                                        ("name", JNumber "123")]))
                  fresh)) = [row]
    /\ lookup "name" row = JString "123".
Proof. eexists. split; reflexivity. Qed.

(* ================================================================== *)
(** ** Further properties of the handlers                               *)
(* ================================================================== *)

Import Vercel Conduct.

(** *** The serverless entry point *)

Lemma prefix_app_same p s : prefix p (p ++ s) = true.
Proof.
  induction p as [|c p IH]; simpl; [now destruct s|].
  destruct (ascii_dec c c); [exact IH | congruence].
Qed.

(** X1. Whatever URL comes in, the URL handed to the application starts with
    [/api]; a URL that already does is left alone, the root [/] becomes
    [/api] with nothing after it, any other gets [/api] in front and
    keeps its text; rewriting twice is rewriting once. *)
Theorem rewrite_url_prefix (url : string) :
  prefix "/api" (rewrite_url url) = true
  /\ (prefix "/api" url = true -> rewrite_url url = url)
  /\ (url = "/" -> rewrite_url url = "/api")
  /\ (prefix "/api" url = false -> url <> "/" -> rewrite_url url = ("/api" ++ url)%string)
  /\ rewrite_url (rewrite_url url) = rewrite_url url.
Proof.
  assert (H1 : prefix "/api" (rewrite_url url) = true).
  { unfold rewrite_url. destruct (prefix "/api" url) eqn:Hp; cbn [negb]; [exact Hp|].
    destruct (url =? "/"); [reflexivity|]. apply (prefix_app_same "/api"). }
  split; [exact H1|]. split; [|split; [|split]].
  - intros Hp. unfold rewrite_url. now rewrite Hp.
  - intros ->. reflexivity.
  - intros Hp Hne. unfold rewrite_url. rewrite Hp. cbn [negb].
    destruct (String.eqb_spec url "/"); [contradiction | reflexivity].
  - unfold rewrite_url at 1. now rewrite H1.
Qed.

Lemma rewrite_url_prefix_witness :
  rewrite_url "/auth/login" = "/api/auth/login"
  /\ rewrite_url "/" = "/api".
Proof.
  split.
  - apply (proj1 (proj2 (proj2 (proj2 (rewrite_url_prefix "/auth/login"))))).
    + reflexivity.
    + discriminate.
  - apply (proj1 (proj2 (proj2 (rewrite_url_prefix "/")))). reflexivity.
Defined.

(** *** The insert [register] builds *)

(** X2. Whatever the catalog reports, the columns and the values of the
    insert go in step, no column comes twice, every column is one of the
    five the handler may write and is one the catalog reported, and the
    list is empty exactly when the catalog reported none of the five. *)
Theorem insert_plan_wellformed (available : list jsval) (normalizedEmail : string)
    (name : jsval) (passwordHash aadhaarKey : string) :
  let plan := insert_plan available normalizedEmail name passwordHash aadhaarKey in
  length (fst plan) = length (snd plan)
  /\ NoDup (fst plan)
  /\ (forall c, In c (fst plan) <-> In c insertable /\ set_has available c = true)
  /\ (fst plan = [] <-> forall c, In c insertable -> set_has available c = false).
Proof.
  unfold insert_plan, push, insertable.
  destruct (set_has available "email") eqn:He;
    destruct (set_has available "full_name") eqn:Hf;
    destruct (set_has available "name") eqn:Hn;
    destruct (set_has available "password_hash") eqn:Hp;
    destruct (set_has available "aadhaar_key") eqn:Ha;
    cbn [andb fst snd app length].
  all: split; [reflexivity|].
  all: split;
    [repeat (constructor; [cbn [In]; intros H;
                           repeat (destruct H as [H|H]; [discriminate H|]); exact H|]);
     constructor|].
  all: split.
  all: try (intros c; cbn [In]; split;
    [ intros H; repeat (destruct H as [H|H]; [subst c; split; [tauto | assumption]|]);
      contradiction
    | intros [H Hs];
      repeat (destruct H as [H|H]; [subst c; first [tauto | congruence]|]);
      contradiction ]).
  all: split;
    [ try discriminate; intros _ c H; cbn [In] in H;
      repeat (destruct H as [H|H]; [subst c; assumption|]); contradiction
    | intros H; try reflexivity; exfalso ].
  all: first [ rewrite (H "email") in He by (cbn; tauto); discriminate
             | rewrite (H "full_name") in Hf by (cbn; tauto); discriminate
             | rewrite (H "name") in Hn by (cbn; tauto); discriminate
             | rewrite (H "password_hash") in Hp by (cbn; tauto); discriminate
             | rewrite (H "aadhaar_key") in Ha by (cbn; tauto); discriminate ].
Qed.

(** *** Recognising a duplicate-key error *)

Lemma prefix_inv p : forall s, prefix p s = true -> exists t, s = (p ++ t)%string.
Proof.
  induction p as [|c p IH]; intros s H; simpl in *.
  - exists s. reflexivity.
  - destruct s as [|d s]; [discriminate|]. simpl in H.
    destruct (ascii_dec c d) as [Heq|]; [subst d|discriminate].
    destruct (IH s H) as [t ->]. exists t. reflexivity.
Qed.

Lemma includes_prefix n h : prefix n h = true -> includes n h = true.
Proof. intros H. destruct h; cbn [includes]; now rewrite H. Qed.

Lemma includes_app n a b : includes n (a ++ n ++ b) = true.
Proof.
  induction a as [|c a IH].
  - apply includes_prefix. apply (prefix_app_same n b).
  - cbn [append includes]. rewrite IH. apply orb_true_r.
Qed.

Lemma includes_inv n h :
  includes n h = true -> exists a b, h = (a ++ n ++ b)%string.
Proof.
  induction h as [|c h IH]; cbn [includes]; intros H.
  - rewrite orb_false_r in H. destruct (prefix_inv _ _ H) as [t Ht].
    exists EmptyString, t. exact Ht.
  - apply orb_true_iff in H. destruct H as [H|H].
    + destruct (prefix_inv _ _ H) as [t Ht]. exists EmptyString, t. exact Ht.
    + destruct (IH H) as (a & b & ->). exists (String c a), b. reflexivity.
Qed.

Lemma fold_case_app a b : fold_case (a ++ b) = (fold_case a ++ fold_case b)%string.
Proof. induction a as [|c a IH]; simpl; [reflexivity | now rewrite IH]. Qed.

Lemma fold_case_app_inv x : forall s y,
  fold_case s = (x ++ y)%string ->
  exists s1 s2, s = (s1 ++ s2)%string /\ fold_case s1 = x /\ fold_case s2 = y.
Proof.
  induction x as [|c x IH]; intros s y H; simpl in H.
  - exists EmptyString, s. auto.
  - destruct s as [|d s]; [discriminate|]. simpl in H. injection H as Hc Hs.
    destruct (IH s y Hs) as (s1 & s2 & -> & H1 & H2).
    exists (String d s1), s2. simpl. rewrite Hc, H1. auto.
Qed.

(** X3. An error counts as a uniqueness violation exactly when its code is
    [23505] or its message contains [duplicate key], in any mix of upper
    and lower case, anywhere. *)
Theorem duplicate_key_detection (e : error) :
  is_duplicate_key e = true <->
  err_code e = Some "23505"
  \/ exists pre m post,
       err_message e = Some (pre ++ m ++ post)%string /\ fold_case m = "duplicate key".
Proof.
  unfold is_duplicate_key, test_duplicate_key. split.
  - intros H. apply orb_true_iff in H. destruct H as [H|H].
    + left. destruct (err_code e) as [c|]; [|discriminate].
      apply String.eqb_eq in H. now subst.
    + right. destruct (includes_inv _ _ H) as (a & b & Hab).
      destruct (err_message e) as [msg|]; [|destruct a; discriminate].
      destruct (fold_case_app_inv _ _ _ Hab) as (pre & rest & -> & Hpre & Hrest).
      destruct (fold_case_app_inv _ _ _ Hrest) as (m & post & -> & Hm & Hpost).
      exists pre, m, post. auto.
  - intros [->|(pre & m & post & -> & Hm)].
    + reflexivity.
    + rewrite !fold_case_app, Hm, includes_app. apply orb_true_r.
Qed.

(** *** Connections *)

Lemma on_client_bind {A B : Type} (m : prog A) (f : A -> prog B) :
  on_client m -> (forall a, on_client (f a)) -> on_client (bind m f).
Proof.
  induction m as [a|k IH|q k IH|k IH|s n k IH|s h k IH|n k IH|pl e k IH|t k IH|k IH|c k IH];
    cbn [on_client bind]; intros Hm Hf; auto; contradiction.
Qed.

Lemma leased_bind {A B : Type} (m : prog A) (f : A -> prog B) :
  on_client m -> (forall a, leased true (f a)) -> leased true (bind m f).
Proof.
  induction m as [a|k IH|q k IH|k IH|s n k IH|s h k IH|n k IH|pl e k IH|t k IH|k IH|c k IH];
    cbn [on_client leased bind]; intros Hm Hf; auto; contradiction.
Qed.

Lemma leased_with_client {A : Type} (body : try_ A) (handler : error -> A) :
  on_client body -> leased false (with_client body handler).
Proof.
  intros Hb. unfold with_client. cbn [leased]. repeat split.
  apply leased_bind; [exact Hb|]. intros r. cbn [leased]. auto.
Qed.

Lemma leased_answered (p : prog response) : forall held,
  leased held p -> leased held (answered p).
Proof.
  unfold answered.
  induction p as [a|k IH|q k IH|k IH|s n k IH|s h k IH|n k IH|pl e k IH|t k IH|k IH|c k IH];
    intros held; cbn [leased bind]; auto.
  - intros (H0 & He & Hn). repeat split; auto.
  - intros (H0 & Hk). split; auto.
  - intros (H0 & Hk). split; auto.
Qed.

Lemma on_client_getUserIdColumn : on_client getUserIdColumn.
Proof.
  unfold getUserIdColumn, and_then, query_, ret. cbn [on_client bind].
  intros c. destruct (truthy (opt_val c)); cbn [on_client]; [exact I|].
  intros [e|rows]; exact I.
Qed.

Lemma on_client_and_then {A B : Type} (m : try_ A) (f : A -> try_ B) :
  on_client m -> (forall a, on_client (f a)) -> on_client (and_then m f).
Proof.
  intros Hm Hf. unfold and_then. apply on_client_bind; [exact Hm|].
  intros [e|a]; [exact I | apply Hf].
Qed.

Lemma on_client_query q : on_client (query_ q).
Proof. unfold query_. cbn. auto. Qed.

(** X4. On every path of every handler, whatever the pool, the store and the
    libraries answer: statements are sent only on a connection that was
    obtained, a connection that was obtained is released exactly once
    before the handler ends, also when a call throws, and nothing is
    released when [pool.connect()] failed or was never reached.  The
    middleware adds no connection of its own. *)
Theorem connection_discipline (NODE_ENV : option string) (req : request) :
  leased false (register NODE_ENV req)
  /\ leased false (login req)
  /\ leased false (getMe req)
  /\ leased false (updateProfile req)
  /\ leased false (verify_access req)
  /\ (forall next, (forall r, leased false (next r)) -> leased false (verifyToken req next)).
Proof.
  repeat match goal with |- _ /\ _ => split end.
  - unfold register.
    destruct (negb _ || negb _); [reflexivity|].
    destruct (get _ "password"); try reflexivity.
    destruct (String.length s <? 6)%nat; [reflexivity|].
    destruct (ToString _); [|reflexivity].
    apply leased_answered, leased_with_client. unfold register_try.
    apply on_client_and_then; [apply on_client_query|]. intros existing.
    destruct (0 <? length existing)%nat; [exact I|].
    apply on_client_and_then; [unfold bcrypt_hash; cbn; auto|]. intros h.
    apply on_client_and_then; [unfold randomBytesHex; cbn; auto|]. intros key.
    apply on_client_and_then; [apply on_client_query|]. intros colsRes.
    destruct (insert_plan _ _ _ _ _) as [cols vals].
    destruct (length cols =? 0)%nat; [exact I|].
    apply on_client_and_then; [apply on_client_query|]. intros _. exact I.
  - unfold login.
    destruct (negb _ || negb _); [reflexivity|].
    destruct (ToString _); [|reflexivity].
    apply leased_answered, leased_with_client. unfold login_try.
    apply on_client_and_then; [apply on_client_getUserIdColumn|]. intros idCol.
    apply on_client_and_then.
    { unfold getNameExpr. apply on_client_and_then; [apply on_client_query|].
      intros; exact I. }
    intros nameExpr.
    apply on_client_and_then; [apply on_client_query|]. intros [|u rest]; [exact I|].
    apply on_client_and_then.
    { destruct (truthy _); [unfold bcrypt_compare; cbn; auto | exact I]. }
    intros ok. destruct (negb ok); [exact I|].
    apply on_client_and_then; [unfold jwt_sign; cbn; auto|]. intros; exact I.
  - unfold getMe. destruct (negb _); [reflexivity|].
    apply leased_with_client.
    apply on_client_and_then; [apply on_client_getUserIdColumn|]. intros idCol.
    apply on_client_and_then.
    { unfold getNameExpr. apply on_client_and_then; [apply on_client_query|].
      intros; exact I. }
    intros nameExpr.
    apply on_client_and_then.
    { unfold getCreatedAtExpr. apply on_client_and_then; [apply on_client_query|].
      intros; exact I. }
    intros createdExpr.
    apply on_client_and_then; [apply on_client_query|]. intros [|u rest]; exact I.
  - unfold updateProfile. destruct (negb _); [reflexivity|].
    destruct (negb _ || negb _); [reflexivity|].
    apply leased_with_client.
    apply on_client_and_then; [apply on_client_getUserIdColumn|]. intros idCol.
    apply on_client_and_then; [apply on_client_query|]. intros colsRes.
    destruct (column_names colsRes); [exact I|].
    destruct (update_plan _ _ _) as [sets vals].
    apply on_client_and_then; [apply on_client_query|]. intros; exact I.
  - unfold verify_access.
    destruct (body req); try reflexivity;
      (destruct (negb _ || negb _); [reflexivity|]);
      apply leased_with_client;
      (apply on_client_and_then; [apply on_client_query|]);
      intros [|b rest]; exact I.
  - intros next Hnext. unfold verifyToken.
    destruct (authorization req) as [h|]; [|reflexivity].
    destruct (h =? EmptyString); [reflexivity|].
    destruct (token_of h) as [tok|]; [|reflexivity].
    destruct (tok =? EmptyString); [reflexivity|].
    cbn [leased]. intros [e|d]; [|apply Hnext].
    destruct (err_name e =? "TokenExpiredError"); reflexivity.
Qed.

(** *** The shape of the responses *)

Lemma envelope_register_catch NODE_ENV e allowed :
  In 409%Z allowed -> In 500%Z allowed -> envelope allowed (register_catch NODE_ENV e).
Proof.
  intros H1 H2. unfold register_catch, envelope.
  destruct (is_duplicate_key e); [split; [exact H1 | reflexivity]|].
  destruct (negb (production NODE_ENV)); split; try exact H2; reflexivity.
Qed.

Lemma every_result_weaken {A : Type} (P Q : A -> Prop) (p : prog A) :
  (forall a, P a -> Q a) -> every_result P p -> every_result Q p.
Proof.
  intros HPQ.
  induction p as [a|k IH|q k IH|k IH|s n k IH|s h k IH|n k IH|pl e k IH|t k IH|k IH|c k IH];
    cbn [every_result]; auto.
Qed.

(** X5. Every response a handler can send, whatever the pool, the store and
    the libraries answer, has a status among the few its code names and
    carries [success: true] exactly when that status is a 2xx one; the
    middleware only adds 401 to what the handler behind it can send.
    [register] and [login] end without a response only when
    [String(email)] throws, the verify-access route only when there is no
    body. *)
Theorem response_envelope (NODE_ENV : option string) (req : request) :
  every_result (fun o => match o with
                         | Some r => envelope [400; 409; 201; 500]%Z r
                         | None =>
                             ToString (get (or_else (body req) (JObject [])) "email") = None
                         end)
               (register NODE_ENV req)
  /\ every_result (fun o => match o with
                            | Some r => envelope [400; 401; 200; 500]%Z r
                            | None =>
                                ToString (get (or_else (body req) (JObject [])) "email")
                                = None
                            end)
                  (login req)
  /\ every_result (envelope [401; 404; 200; 500]%Z) (getMe req)
  /\ every_result (envelope [401; 400; 200; 500]%Z) (updateProfile req)
  /\ every_result (envelope [200]%Z) (logout req)
  /\ every_result (envelope [200]%Z) (verifyAadhaar req)
  /\ every_result (fun o => match o with
                            | Some r => envelope [400; 403; 200; 500]%Z r
                            | None => sql_null (body req) = true
                            end)
                  (verify_access req)
  /\ (forall allowed next,
        (forall r, every_result (envelope allowed) (next r)) ->
        every_result (envelope (401%Z :: allowed)) (verifyToken req next)).
Proof.
  repeat match goal with |- _ /\ _ => split end.
  1-7: unfold register, login, getMe, updateProfile, logout, verifyAadhaar, verify_access,
         register_try, login_try, getUserIdColumn, getNameExpr, getCreatedAtExpr.
  1-7: repeat first
    [ progress cbn [every_result]
    | progress unfold and_then, query_, ret, throw, with_client, bcrypt_hash,
                      bcrypt_compare, randomBytesHex, jwt_sign, answered
    | match goal with
      | |- forall _, _ => intro
      | |- every_result _ (bind _ _) => apply every_result_bind
      | |- every_result _ (match ToString ?x with _ => _ end) => destruct (ToString x) eqn:?
      | |- every_result _ (match ?x with _ => _ end) => destruct x
      | |- every_result _ (let '(_, _) := ?x in _) => destruct x
      end ].
  all: try assumption.
  all: try (apply envelope_register_catch; cbn; tauto).
  all: try (unfold envelope; cbn; split; [tauto | reflexivity]).
  all: try reflexivity.
  intros allowed next Hnext. unfold verifyToken.
  destruct (authorization req) as [h|];
    [|split; [now left | reflexivity]].
  destruct (h =? EmptyString); [split; [now left | reflexivity]|].
  destruct (token_of h) as [tok|]; [|split; [now left | reflexivity]].
  destruct (tok =? EmptyString); [split; [now left | reflexivity]|].
  cbn [every_result]. intros [e|d].
  - destruct (err_name e =? "TokenExpiredError"); split; try (now left); reflexivity.
  - apply (every_result_weaken (envelope allowed)); [|apply Hnext].
    intros r [Hs Hb]. split; [now right | exact Hb].
Qed.

(** X6. What the error paths disclose.  Whenever a call of [login], [getMe]
    or [updateProfile] throws (the pool, the client, bcrypt,
    jsonwebtoken), the answer is the one fixed 500 body, and they have no
    other 500: no error text reaches the caller.  Whenever a call of
    [register] throws, the answer is what its [catch] block makes of the
    error: unless it is a duplicate key, a 500 with the message of the
    error (a default when it has none), and with its [code] and [detail]
    outside production only.  Whenever a call of the verify-access route
    throws, the answer is a 500 whose message is that of the error. *)
Theorem error_disclosure (NODE_ENV : option string) (req : request) :
  catches (fun _ o => o = Some internal_error) (login req)
  /\ catches (fun _ r => r = internal_error) (getMe req)
  /\ catches (fun _ r => r = internal_error) (updateProfile req)
  /\ every_result (fun o => forall r, o = Some r -> status r = 500%Z -> r = internal_error)
                  (login req)
  /\ every_result (fun r => status r = 500%Z -> r = internal_error) (getMe req)
  /\ every_result (fun r => status r = 500%Z -> r = internal_error) (updateProfile req)
  /\ catches (fun e o => o = Some (register_catch NODE_ENV e)) (register NODE_ENV req)
  /\ (forall e,
        is_duplicate_key e = false ->
        status (register_catch NODE_ENV e) = 500%Z
        /\ json (register_catch NODE_ENV e)
           = [("success", JBool false);
              ("message", JString match err_message e with
                                  | Some m => if m =? EmptyString
                                              then "Internal server error" else m
                                  | None => "Internal server error"
                                  end)]
             ++ (if production NODE_ENV then []
                 else [("code", opt_val (err_code e)); ("detail", opt_val (err_detail e))]))
  /\ every_result (fun o => forall r, o = Some r -> status r = 500%Z ->
                            map fst (json r)
                            = if production NODE_ENV then ["success"; "message"]
                              else ["success"; "message"; "code"; "detail"])
                  (register NODE_ENV req)
  /\ catches (fun e o => o = Some (Response 500 [("success", JBool false);
                                                 ("message", opt_val (err_message e))]))
             (verify_access req).
Proof.
  repeat match goal with |- _ /\ _ => split end.
  8:{ intros e He. unfold register_catch. rewrite He.
      destruct (production NODE_ENV); split; reflexivity. }
  all: unfold register, login, getMe, updateProfile, verify_access,
         register_try, login_try, getUserIdColumn, getNameExpr, getCreatedAtExpr.
  all: repeat first
    [ progress cbn [catches every_result bind]
    | progress unfold and_then, query_, ret, throw, with_client, bcrypt_hash,
                      bcrypt_compare, randomBytesHex, jwt_sign, answered
    | match goal with
      | |- forall _ : error + _, _ => intro
      | |- forall _ : option error, _ => intro
      | |- forall _ : option string, _ => intro
      | |- forall _ : string, _ => intro
      | |- forall _ : error, _ => intro
      | |- forall _ : list row, _ => intro
      | |- forall _ : bool, _ => intro
      | |- forall _ : jsval, _ => intro
      | |- _ /\ _ => split
      | |- every_result _ (bind _ _) => apply every_result_bind
      | |- every_result _ (match ?x with _ => _ end) => destruct x
      | |- every_result _ (let '(_, _) := ?x in _) => destruct x
      | |- catches _ (match ?x with _ => _ end) => destruct x
      | |- catches _ (let '(_, _) := ?x in _) => destruct x
      | |- catches _ (bind (match ?x with _ => _ end) _) => destruct x
      | |- catches _ (bind (let '(_, _) := ?x in _) _) => destruct x
      | |- catches _ (bind (bind (match ?x with _ => _ end) _) _) => destruct x
      | |- catches _ (bind (bind (let '(_, _) := ?x in _) _) _) => destruct x
      | |- catches _ (bind (bind (bind (match ?x with _ => _ end) _) _) _) => destruct x
      end ].
  all: try exact I.
  all: try reflexivity.
  all: try (intros Hst0; first [reflexivity | discriminate Hst0]).
  all: let x := fresh "resp" in
       intros x Hr0 Hst0; try discriminate Hr0; injection Hr0 as <-.
  all: try (first [discriminate Hst0 | reflexivity]).
  all: unfold register_catch in *; destruct (is_duplicate_key _); [discriminate|].
  all: destruct (production NODE_ENV); reflexivity.
Qed.

(** *** Validation comes before the store *)

(** X7. A handler reaches for the pool exactly when its input passes its
    validation and, in [register] and [login], [String(email)] does not
    throw: a request it turns down costs no connection and no statement,
    and one on which the conversion throws ends there, without a
    response. *)
Theorem store_only_after_validation (NODE_ENV : option string) (req : request) :
  let b := or_else (body req) (JObject []) in
  (store_free (register NODE_ENV req)
   <-> invalid_registration req \/ ToString (get b "email") = None)
  /\ (~ invalid_registration req -> ToString (get b "email") = None ->
      register NODE_ENV req = Ret None)
  /\ (store_free (login req)
      <-> truthy (get b "email") = false \/ truthy (get b "password") = false
          \/ ToString (get b "email") = None)
  /\ (truthy (get b "email") = true -> truthy (get b "password") = true ->
      ToString (get b "email") = None -> login req = Ret None)
  /\ (store_free (getMe req) <-> truthy (get (user req) "userId") = false)
  /\ (store_free (updateProfile req)
      <-> truthy (get (user req) "userId") = false
          \/ truthy (get b "name") = false \/ is_string (get b "name") = false)
  /\ (store_free (verify_access req)
      <-> sql_null (body req) = true
          \/ truthy (get (body req) "user_id") = false
          \/ truthy (get (body req) "qr_code_id") = false).
Proof.
  intros b. subst b. repeat match goal with |- _ /\ _ => split end.
  - unfold register, invalid_registration.
    destruct (truthy (get _ "email")); destruct (truthy (get _ "password")) eqn:Hp;
      cbn [negb orb]; try (split; [auto | intros _; exact I]).
    destruct (get _ "password") as [| |b0|n0|pw|xs|o];
      try (split; [auto | intros _; exact I]).
    destruct (String.length pw <? 6)%nat eqn:Hlen.
    + split; [intros _; left; right; right; now apply Nat.ltb_lt | intros _; exact I].
    + destruct (ToString _) as [text|]; [|split; [auto | intros _; exact I]].
      split; [intros [] | intros [[H|[H|H]]|H]; try discriminate].
      apply Nat.ltb_ge in Hlen. lia.
  - unfold register, invalid_registration. intros Hvalid Hthrow.
    destruct (truthy (get _ "email")); [|exfalso; apply Hvalid; auto].
    destruct (truthy (get _ "password")); [|exfalso; apply Hvalid; auto].
    cbn [negb orb].
    destruct (get _ "password") as [| |b0|n0|pw|xs|o];
      try (exfalso; apply Hvalid; right; right; exact I).
    destruct (String.length pw <? 6)%nat eqn:Hlen.
    + exfalso. apply Hvalid. right; right. now apply Nat.ltb_lt.
    + now rewrite Hthrow.
  - unfold login.
    destruct (truthy (get _ "email")); destruct (truthy (get _ "password"));
      cbn [negb orb]; try (split; [auto | intros _; exact I]).
    destruct (ToString _) as [text|]; [|split; [auto | intros _; exact I]].
    split; [intros [] | intros [H|[H|H]]; discriminate].
  - unfold login. intros -> -> ->. reflexivity.
  - unfold getMe. destruct (truthy _); cbn [negb];
      (split; [try (intros []); auto | try (intros _; exact I)]). discriminate.
  - unfold updateProfile. destruct (truthy (get (user req) "userId")); cbn [negb].
    2:{ split; [auto | intros _; exact I]. }
    destruct (truthy (get _ "name")); destruct (is_string (get _ "name"));
      cbn [negb orb]; (split; [try (intros []); auto | try (intros _; exact I)]).
    intros [H|[H|H]]; discriminate.
  - unfold verify_access.
    destruct (body req) as [| |b0|n0|s0|xs|o]; cbn [get sql_null truthy negb orb];
      try (split; [auto | intros _; exact I]).
    destruct (truthy (lookup "user_id" o)); destruct (truthy (lookup "qr_code_id" o));
      cbn [negb orb]; (split; [try (intros []); auto | try (intros _; exact I)]).
    intros [H|[H|H]]; discriminate.
Qed.

(** *** When [login] issues a token *)

(** X8. [login] answers 200 only when [String(email)] gave a text, a users
    row has that text in lowercase as its e-mail, that row has a password
    hash, [bcrypt.compare] accepted the password against it and
    [jwt.sign] produced the token that is sent, signed for the identifier
    of that row; no users row is touched.  On a store that answers,
    these conditions are also enough. *)
Theorem login_token_only_when_verified (lib : library) (w : world) (req : request) :
  let b := or_else (body req) (JObject []) in
  let granted email u tok :=
    normalized_email (get b "email") = Some email
    /\ find_user w email = Some u
    /\ truthy (lookup "password_hash" u) = true
    /\ lib_bcrypt_compare lib (get b "password") (lookup "password_hash" u) = inr true
    /\ lib_jwt_sign lib (JObject [("userId", lookup (id_column w) u)]) "1h" (now w)
       = inr tok in
  (forall r,
     fst (run lib (login req) w) = Some r ->
     status r = 200%Z ->
     exists email u tok,
       granted email u tok
       /\ r = Response 200 [("success", JBool true); ("token", JString tok)]
       /\ users (snd (run lib (login req) w)) = users w)
  /\ (forall email u tok,
        truthy (get b "email") = true -> truthy (get b "password") = true ->
        conn_error w = None ->
        forallb (fun c => mem c (users_columns w)) [id_column w; "email"; "password_hash"]
        = true ->
        granted email u tok ->
        fst (run lib (login req) w)
        = Some (Response 200 [("success", JBool true); ("token", JString tok)])).
Proof.
  intros b granted.
  pose proof (run_login lib w req) as Hrun. cbv zeta in Hrun. fold b in Hrun.
  split.
  - intros r Hr Hst.
    destruct (truthy (get b "email")) eqn:He.
    2:{ exfalso. revert Hr. unfold login. fold b. rewrite He. intros [= <-]. discriminate. }
    destruct (truthy (get b "password")) eqn:Hp.
    2:{ exfalso. revert Hr. unfold login. fold b. rewrite He, Hp. intros [= <-].
        discriminate. }
    destruct (normalized_email (get b "email")) as [email|] eqn:Hn.
    2:{ exfalso. revert Hr. unfold login. fold b. rewrite He, Hp. cbn [negb orb].
        unfold normalized_email in Hn. destruct (ToString (get b "email")); discriminate. }
    assert (Hlogin : login req
                     = answered (with_client (login_try email (get b "password"))
                                             (fun _ => internal_error))).
    { unfold login. fold b. rewrite He, Hp. cbn [negb orb].
      unfold normalized_email in Hn. destruct (ToString (get b "email")); [|discriminate].
      now injection Hn as ->. }
    destruct (conn_error w) as [err|] eqn:Hconn.
    { exfalso. revert Hr. rewrite Hlogin, run_answered.
      unfold with_client. cbn [run]. rewrite Hconn. intros [= <-]. discriminate. }
    destruct (missing_column (id_cached w)
                (id_column w :: "email" :: expr_columns (name_expr (id_cached w))
                 ++ ["password_hash"])) as [c|] eqn:Hmiss.
    { exfalso. revert Hr. rewrite Hlogin, run_answered.
      unfold with_client, login_try. cbn [run]. rewrite Hconn.
      rewrite run_getUserIdColumn, run_getNameExpr.
      unfold and_then at 1. cbn [bind run query_ pg_query]. rewrite Hmiss.
      intros [= <-]. discriminate. }
    rewrite (Hrun email eq_refl eq_refl eq_refl eq_refl eq_refl) in Hr |- *.
    destruct (find_user w email) as [u|] eqn:Hfind;
      [|injection Hr as <-; discriminate Hst].
    destruct (truthy (lookup "password_hash" u)) eqn:Hh;
      [|injection Hr as <-; discriminate Hst].
    destruct (lib_bcrypt_compare lib (get b "password") (lookup "password_hash" u))
      as [e|[|]] eqn:Hc; try (injection Hr as <-; discriminate Hst).
    destruct (lib_jwt_sign lib (JObject [("userId", lookup (id_column w) u)]) "1h" (now w))
      as [e|tok] eqn:Hs; [injection Hr as <-; discriminate Hst|].
    exists email, u, tok. subst granted. cbn [fst snd] in Hr |- *. injection Hr as <-.
    repeat split; try assumption; try reflexivity. apply id_cached_users.
  - intros email u tok He Hp Hconn Hcols (Hn & Hfind & Hh & Hc & Hs).
    rewrite (Hrun email He Hp Hn Hconn (login_columns w Hcols)).
    now rewrite Hfind, Hh, Hc, Hs.
Qed.

Lemma login_token_only_when_verified_witness :
  fst (run toy_library
         (login (post [("email", JString "A@X.com"); ("password", JString "secret1")]))
         both_names)
  = Some (Response 200 [("success", JBool true); ("token", JString "jwt.7")]).
Proof.
  apply (proj2 (login_token_only_when_verified toy_library both_names
                  (post [("email", JString "A@X.com"); ("password", JString "secret1")]))
           "a@x.com"
           [("id", num 7); ("email", JString "a@x.com");
            ("full_name", JString "Ann"); ("name", JString "Ann");
            ("password_hash", JString "$2a$10$secret1")]
           "jwt.7"); try reflexivity.
  repeat split.
Defined.

(** *** Login failures that look alike *)



(** *** What a successful registration stores *)


Lemma has_email_tick w v : has_email (tick w) v = has_email w v.
Proof. reflexivity. Qed.




(** *** What [getMe] shows *)

Lemma eval_name_expr w w' u :
  users_columns w' = users_columns w ->
  eval_expr w' (name_expr w') u = display_name w u.
Proof.
  intros Hc. unfold name_expr, display_name. rewrite Hc.
  destruct (mem "full_name" (users_columns w));
    destruct (mem "name" (users_columns w)); reflexivity.
Qed.

Lemma eval_created_expr w w' u :
  users_columns w' = users_columns w -> now w' = now w ->
  eval_expr w' (created_expr w') u = creation_time w u.
Proof.
  intros Hc Hn. unfold created_expr, creation_time. rewrite Hc.
  destruct (mem "created_at" (users_columns w)); cbn; [reflexivity | now rewrite Hn].
Qed.

Lemma run_getMe (lib : library) (w : world) (req : request) :
  truthy (get (user req) "userId") = true ->
  conn_error w = None ->
  missing_column (id_cached w)
    (id_column w :: "email" :: expr_columns (name_expr (id_cached w))
     ++ expr_columns (created_expr (id_cached w))) = None ->
  run lib (getMe req) w
  = match find_principal w (get (user req) "userId") with
    | Some u => (me_response w u, id_cached w)
    | None => (Response 404 [("success", JBool false);
                             ("message", JString "User not found")], id_cached w)
    end.
Proof.
  intros Hu Hconn Hmiss. unfold getMe. rewrite Hu. cbn [negb].
  unfold with_client. cbn [run]. rewrite Hconn.
  rewrite run_getUserIdColumn, run_getNameExpr, run_getCreatedAtExpr.
  unfold and_then. cbn [bind run query_ pg_query]. rewrite Hmiss.
  rewrite id_cached_users. unfold find_principal.
  match goal with
  | |- context [filter ?f (users w)] => set (rows := filter f (users w))
  end.
  destruct rows as [|u rest] eqn:Hrows; subst rows.
  - rewrite (filter_nil_find _ _ Hrows). reflexivity.
  - rewrite (filter_head_find _ _ _ _ Hrows). cbn [map bind run ret].
    cbn [lookup String.eqb Ascii.eqb Bool.eqb].
    rewrite (eval_name_expr w) by apply id_cached_columns.
    rewrite (eval_created_expr w) by (apply id_cached_columns || apply id_cached_now).
    reflexivity.
Qed.

(** X10. [getMe] answers 200 only for a request whose principal has an
    identifier, and what it shows is the first users row stored under
    that identifier: its id, e-mail, display name ([full_name] before
    [name]) and creation time (the present instant when the table keeps
    none); no users row is touched.  On a store that answers, a
    principal with a row gets that row and one without gets 404. *)
Theorem getMe_shows_own_row (lib : library) (w : world) (req : request) :
  let userId := get (user req) "userId" in
  (status (fst (run lib (getMe req) w)) = 200%Z ->
   exists u,
     truthy userId = true
     /\ find_principal w userId = Some u
     /\ sql_eq (lookup (id_column w) u) userId = true
     /\ fst (run lib (getMe req) w) = me_response w u
     /\ users (snd (run lib (getMe req) w)) = users w)
  /\ (truthy userId = true ->
      conn_error w = None ->
      forallb (fun c => mem c (users_columns w)) [id_column w; "email"] = true ->
      fst (run lib (getMe req) w)
      = match find_principal w userId with
        | Some u => me_response w u
        | None => Response 404 [("success", JBool false);
                                ("message", JString "User not found")]
        end).
Proof.
  intros userId. split.
  - intros Hst.
    destruct (truthy userId) eqn:Hu.
    2:{ exfalso. revert Hst. unfold getMe. fold userId. rewrite Hu. discriminate. }
    destruct (conn_error w) as [err|] eqn:Hconn.
    { exfalso. revert Hst. unfold getMe. fold userId. rewrite Hu. cbn [negb].
      unfold with_client. cbn [run]. rewrite Hconn. discriminate. }
    destruct (missing_column (id_cached w)
                (id_column w :: "email" :: expr_columns (name_expr (id_cached w))
                 ++ expr_columns (created_expr (id_cached w)))) as [c|] eqn:Hmiss.
    { exfalso. revert Hst. unfold getMe. fold userId. rewrite Hu. cbn [negb].
      unfold with_client. cbn [run]. rewrite Hconn.
      rewrite run_getUserIdColumn, run_getNameExpr, run_getCreatedAtExpr.
      unfold and_then. cbn [bind run query_ pg_query]. rewrite Hmiss. discriminate. }
    rewrite (run_getMe lib w req Hu Hconn Hmiss) in Hst |- *. fold userId in Hst |- *.
    destruct (find_principal w userId) as [u|] eqn:Hfind; [|discriminate Hst].
    exists u. cbn [fst snd]. repeat split; auto.
    + unfold find_principal in Hfind. apply find_some in Hfind. apply Hfind.
    + apply id_cached_users.
  - intros Hu Hconn Hcols.
    cbn [forallb] in Hcols. rewrite andb_true_r in Hcols.
    apply andb_true_iff in Hcols. destruct Hcols as [Hid Hem].
    rewrite (run_getMe lib w req Hu Hconn).
    + fold userId. destruct (find_principal w userId); reflexivity.
    + apply missing_none. rewrite id_cached_columns. cbn [forallb].
      rewrite Hid, Hem. cbn [andb]. apply forallb_app_true.
      * unfold name_expr. rewrite id_cached_columns. apply name_expr_columns.
      * unfold created_expr. rewrite id_cached_columns. apply created_expr_columns.
Qed.

Lemma getMe_shows_own_row_witness :
  fst (run toy_library (getMe (as_user (num 7) [])) both_names)
  = match find_principal both_names (num 7) with
    | Some u => me_response both_names u
    | None => Response 404 [("success", JBool false); ("message", JString "User not found")]
    end.
Proof.
  apply (proj2 (getMe_shows_own_row toy_library both_names (as_user (num 7) [])));
    reflexivity.
Defined.

(** *** The middleware in front of a handler *)

Lemma run_verifyToken (lib : library) (w : world) (req : request)
    (next : request -> prog response) :
  match accepted lib w req with
  | Some decoded =>
      run lib (verifyToken req next) w = run lib (next (set_user req decoded)) w
  | None =>
      status (fst (run lib (verifyToken req next) w)) = 401%Z
      /\ snd (run lib (verifyToken req next) w) = w
  end.
Proof.
  unfold accepted, verifyToken, token_of.
  destruct (authorization req) as [h|]; [|split; reflexivity].
  destruct (String.eqb_spec h EmptyString) as [->|_]; [split; reflexivity|].
  destruct (nth_error (split " " h) 1) as [tok|]; [|split; reflexivity].
  destruct (tok =? EmptyString); [split; reflexivity|].
  cbn [run]. destruct (lib_jwt_verify lib tok (now w)) as [e|d]; [|reflexivity].
  destruct (err_name e =? "TokenExpiredError"); split; reflexivity.
Qed.

(** X11. Behind the middleware, as the router mounts them: the four protected
    routes answer 200 only to a request whose token verified; [logout]
    and [verifyAadhaar] then answer 200 whatever the token says, and
    neither they nor a rejection change the store or the cache, so a
    token that passed before a logout passes after it. *)
Theorem protected_routes (lib : library) (w : world) (req : request) :
  (forall route, In route [route_me; route_logout; route_verify_aadhaar; route_update_profile] ->
     status (fst (run lib (route req) w)) = 200%Z -> accepted lib w req <> None)
  /\ (forall route, In route [route_logout; route_verify_aadhaar] ->
        snd (run lib (route req) w) = w
        /\ (accepted lib w req <> None -> status (fst (run lib (route req) w)) = 200%Z))
  /\ accepted lib (snd (run lib (route_logout req) w)) req = accepted lib w req
  /\ (forall route, In route [route_me; route_update_profile] ->
        accepted lib w req = None -> snd (run lib (route req) w) = w).
Proof.
  assert (Hshut : forall next,
            accepted lib w req = None ->
            status (fst (run lib (verifyToken req next) w)) = 401%Z
            /\ snd (run lib (verifyToken req next) w) = w).
  { intros next Hn. pose proof (run_verifyToken lib w req next) as H.
    now rewrite Hn in H. }
  assert (Hpass : forall next d,
            accepted lib w req = Some d ->
            run lib (verifyToken req next) w = run lib (next (set_user req d)) w).
  { intros next d Hd. pose proof (run_verifyToken lib w req next) as H.
    now rewrite Hd in H. }
  assert (Hstateless : forall route, In route [route_logout; route_verify_aadhaar] ->
            snd (run lib (route req) w) = w
            /\ (accepted lib w req <> None -> status (fst (run lib (route req) w)) = 200%Z)).
  { intros route [<-|[<-|[]]]; unfold route_logout, route_verify_aadhaar;
      (destruct (accepted lib w req) as [d|] eqn:Ha;
       [rewrite (Hpass _ d eq_refl); split; [reflexivity | intros _; reflexivity]
       |split; [apply Hshut; reflexivity | intros H; contradiction]]). }
  split; [|split; [exact Hstateless|split]].
  - intros route Hin Hst Hnone.
    assert (H401 : status (fst (run lib (route req) w)) = 401%Z).
    { destruct Hin as [<-|[<-|[<-|[<-|[]]]]]; apply Hshut; exact Hnone. }
    rewrite H401 in Hst. discriminate.
  - now rewrite (proj1 (Hstateless route_logout (or_introl eq_refl))).
  - intros route [<-|[<-|[]]] Hnone; apply Hshut; exact Hnone.
Qed.

(** *** Register, log in, read the profile *)







(** *** What a handler leaves untouched *)

Lemma same_store_refl w : same_store w w.
Proof. repeat split. Qed.

Lemma same_store_trans w1 w2 w3 : same_store w1 w2 -> same_store w2 w3 -> same_store w1 w3.
Proof.
  unfold same_store. intros (A1 & A2 & A3 & A4 & A5 & A6 & A7 & A8 & A9 & A10 & A11)
                            (B1 & B2 & B3 & B4 & B5 & B6 & B7 & B8 & B9 & B10 & B11).
  repeat split; congruence.
Qed.

Lemma pg_query_reads q w : reads q -> snd (pg_query q w) = w.
Proof.
  destruct q; cbn [reads pg_query]; try contradiction; intros _; try reflexivity.
  - destruct (missing_column w ["email"]); reflexivity.
  - destruct (missing_column w _); reflexivity.
  - destruct (missing_column w _); reflexivity.
  - destruct (read_parameter (user_id_input w) _); [reflexivity|].
    destruct (read_parameter (qr_code_input w) _); reflexivity.
Qed.

Lemma run_reads {A : Type} (lib : library) (p : prog A) : forall w,
  every_query reads p -> same_store w (snd (run lib p w)).
Proof.
  induction p as [a|k IH|q k IH|k IH|s n k IH|s h k IH|n k IH|pl e k IH|t k IH|k IH|c k IH];
    intros w H; cbn [every_query run] in *.
  - apply same_store_refl.
  - apply IH, H.
  - destruct H as [Hq Hk]. pose proof (pg_query_reads q w Hq) as Hw.
    destruct (pg_query q w) as [r w']. cbn [snd] in Hw. subst w'. apply IH, Hk.
  - apply IH, H.
  - eapply same_store_trans; [|apply IH, H]. repeat split.
  - apply IH, H.
  - eapply same_store_trans; [|apply IH, H]. repeat split.
  - apply IH, H.
  - apply IH, H.
  - apply IH, H.
  - eapply same_store_trans; [|apply IH, H]. repeat split.
Qed.

Lemma renamed_refl r : renamed r r.
Proof. intros c _ _. reflexivity. Qed.

Lemma renamed_apply_sets sets vals : forall r,
  (forall c, In c (map fst sets) -> c = "full_name" \/ c = "name") ->
  renamed r (apply_sets sets vals r).
Proof.
  unfold apply_sets. induction sets as [|[k i] sets IH]; intros r Hk; cbn [fold_left fst snd].
  - apply renamed_refl.
  - intros c Hf Hn. rewrite IH; auto.
    + apply lookup_set_field_other. intros ->.
      destruct (Hk k (or_introl eq_refl)); contradiction.
    + intros c' Hc'. apply Hk. now right.
Qed.

Lemma Forall2_renamed_refl l : Forall2 renamed l l.
Proof. induction l; constructor; auto using renamed_refl. Qed.

Lemma renamed_trans r1 r2 r3 : renamed r1 r2 -> renamed r2 r3 -> renamed r1 r3.
Proof. intros H12 H23 c Hf Hn. rewrite (H23 c Hf Hn). apply H12; assumption. Qed.

Lemma Forall2_renamed_trans l1 l2 :
  Forall2 renamed l1 l2 -> forall l3, Forall2 renamed l2 l3 -> Forall2 renamed l1 l3.
Proof.
  induction 1 as [|a b l1 l2 Hab _ IH]; intros l3 H23; inversion H23; subst; constructor.
  - eapply renamed_trans; eassumption.
  - apply IH. assumption.
Qed.

Lemma pg_query_renames q w :
  reads_or_renames q -> Forall2 renamed (users w) (users (snd (pg_query q w))).
Proof.
  destruct q; cbn [reads_or_renames pg_query]; try contradiction; intros H;
    try apply Forall2_renamed_refl.
  - destruct (missing_column w ["email"]); apply Forall2_renamed_refl.
  - destruct (missing_column w _); apply Forall2_renamed_refl.
  - destruct (missing_column w _); apply Forall2_renamed_refl.
  - destruct sets as [|s0 sets]; [apply Forall2_renamed_refl|].
    destruct (missing_column w _); [apply Forall2_renamed_refl|].
    cbn [snd users with_users]. apply Forall2_map_self. intros r.
    destruct (sql_eq _ _); [|apply renamed_refl].
    apply renamed_apply_sets. exact H.
  - destruct (read_parameter (user_id_input w) _); [apply Forall2_renamed_refl|].
    destruct (read_parameter (qr_code_input w) _); apply Forall2_renamed_refl.
Qed.

Lemma run_renames {A : Type} (lib : library) (p : prog A) : forall w,
  every_query reads_or_renames p ->
  Forall2 renamed (users w) (users (snd (run lib p w))).
Proof.
  induction p as [a|k IH|q k IH|k IH|s n k IH|s h k IH|n k IH|pl e k IH|t k IH|k IH|c k IH];
    intros w H; cbn [every_query run] in *;
    try apply Forall2_renamed_refl; try (apply IH, H).
  - destruct H as [Hq Hk]. pose proof (pg_query_renames q w Hq) as Hw.
    destruct (pg_query q w) as [r w']. cbn [snd] in Hw.
    eapply Forall2_renamed_trans; [exact Hw | apply IH, Hk].
  - apply (IH _ (tick w)), H.
  - apply (IH _ (tick w)), H.
  - apply (IH (with_cache w (Some c))), H.
Qed.

Lemma pg_query_inserts q w :
  reads_or_inserts q -> exists added, users (snd (pg_query q w)) = users w ++ added.
Proof.
  destruct q; cbn [reads_or_inserts pg_query]; try contradiction; intros _;
    try (exists []; now rewrite app_nil_r).
  - destruct (missing_column w ["email"]); exists []; now rewrite app_nil_r.
  - destruct insertCols; [exists []; now rewrite app_nil_r|].
    destruct (missing_column w _); [exists []; now rewrite app_nil_r|].
    destruct (has_email w _); [exists []; now rewrite app_nil_r|].
    eexists. reflexivity.
  - destruct (missing_column w _); exists []; now rewrite app_nil_r.
  - destruct (missing_column w _); exists []; now rewrite app_nil_r.
  - destruct (read_parameter (user_id_input w) _); [exists []; now rewrite app_nil_r|].
    destruct (read_parameter (qr_code_input w) _); exists []; now rewrite app_nil_r.
Qed.

Lemma run_inserts {A : Type} (lib : library) (p : prog A) : forall w,
  every_query reads_or_inserts p ->
  exists added, users (snd (run lib p w)) = users w ++ added.
Proof.
  induction p as [a|k IH|q k IH|k IH|s n k IH|s h k IH|n k IH|pl e k IH|t k IH|k IH|c k IH];
    intros w H; cbn [every_query run] in *;
    try (exists []; now rewrite app_nil_r); try (apply IH, H).
  - destruct H as [Hq Hk]. destruct (pg_query_inserts q w Hq) as [a1 Ha1].
    destruct (pg_query q w) as [r w']. cbn [snd] in Ha1.
    destruct (IH r w' (Hk r)) as [a2 Ha2]. exists (a1 ++ a2).
    now rewrite Ha2, Ha1, app_assoc.
  - apply (IH _ (tick w)), H.
  - apply (IH _ (tick w)), H.
  - apply (IH (with_cache w (Some c))), H.
Qed.

Lemma update_plan_names cols name userId c :
  In c (map fst (fst (update_plan cols name userId))) -> c = "full_name" \/ c = "name".
Proof.
  unfold update_plan.
  destruct (set_has cols "full_name"); destruct (set_has cols "name");
    cbn [fst map app In]; intros H;
    repeat (destruct H as [H|H]; [subst c; tauto|]); contradiction.
Qed.

(** X13. What the handlers never change, for every request and whatever the
    collaborators answer: [login], [getMe] and verify-access send only
    statements that read, so store, pool and clock are after them as
    before; [updateProfile] changes nothing but name columns, so no
    e-mail or password hash moves and no row appears or goes; [register]
    only reads and inserts, so the rows that were there stay, in place. *)
Theorem data_frame (lib : library) (NODE_ENV : option string) (w : world) (req : request) :
  same_store w (snd (run lib (login req) w))
  /\ same_store w (snd (run lib (getMe req) w))
  /\ same_store w (snd (run lib (verify_access req) w))
  /\ Forall2 renamed (users w) (users (snd (run lib (updateProfile req) w)))
  /\ exists added, users (snd (run lib (register NODE_ENV req) w)) = users w ++ added.
Proof.
  repeat match goal with |- _ /\ _ => split end.
  1-3: apply run_reads.
  4: apply run_renames.
  5: apply run_inserts.
  all: unfold register, login, getMe, updateProfile, verify_access,
         register_try, login_try, getUserIdColumn, getNameExpr, getCreatedAtExpr,
         answered, with_client, and_then, query_, bcrypt_hash, bcrypt_compare,
         randomBytesHex, jwt_sign, ret, throw.
  all: repeat first
      [ progress cbn [every_query bind]
      | match goal with
        | |- forall _, _ => intro
        | |- _ /\ _ => split
        | |- every_query _ (match ?x with _ => _ end) => destruct x eqn:?
        | |- every_query _ (bind _ _) => apply every_query_bind
        end ].
  all: try exact I.
  cbn [reads_or_renames]. intros c Hc.
  match goal with
  | H : update_plan ?cols ?n ?u = (_, _) |- _ =>
      apply (update_plan_names cols n u); rewrite H; exact Hc
  end.
Qed.

(** *** The cached id column *)



(** *** The default display name *)

Lemma split_head (s : string) :
  let h := hd EmptyString (split "@" s) in
  no_at h /\ (s = h \/ exists rest, s = (h ++ String "@"%char rest)%string).
Proof.
  induction s as [|c s IH]; cbn [split hd].
  - split; [exact I | now left].
  - destruct (Ascii.eqb_spec c "@"%char) as [->|Hne]; cbn [hd].
    + split; [exact I|]. right. exists s. reflexivity.
    + cbv zeta in IH. destruct (split "@" s) as [|h t]; cbn [hd] in *.
      * destruct IH as [_ [->|[rest Hr]]].
        -- split; [split; [exact Hne | exact I] | now left].
        -- split; [split; [exact Hne | exact I]|]. right. exists rest.
           cbn [append] in *. now rewrite Hr.
      * destruct IH as [Hh [->|[rest Hr]]].
        -- split; [split; assumption | now left].
        -- split; [split; assumption|]. right. exists rest. cbn [append]. now rewrite Hr.
Qed.

(** X15. When the request gives no name, what [register] writes in every name
    column it fills is the part of the e-mail before its first [@] (the
    whole e-mail when it has none); a name that is given is written as
    it is, and [full_name] and [name] always get the same value. *)
Theorem default_display_name (available : list jsval) (normalizedEmail : string)
    (name : jsval) (passwordHash aadhaarKey : string) :
  let plan := insert_plan available normalizedEmail name passwordHash aadhaarKey in
  let given := combine (fst plan) (snd plan) in
  let local := hd EmptyString (split "@" normalizedEmail) in
  no_at local
  /\ (normalizedEmail = local
      \/ exists rest, normalizedEmail = (local ++ String "@"%char rest)%string)
  /\ (forall c, (c = "full_name" \/ c = "name") -> In c (fst plan) ->
        lookup c given = if truthy name then name else JString local).
Proof.
  intros plan given local.
  destruct (split_head normalizedEmail) as [Hno Hsplit]. fold local in Hno, Hsplit.
  split; [exact Hno|]. split; [exact Hsplit|].
  subst plan given. unfold insert_plan, push, or_else. fold local.
  intros c Hc.
  destruct (set_has available "email");
    destruct (set_has available "full_name");
    destruct (set_has available "name");
    destruct (set_has available "password_hash");
    destruct (set_has available "aadhaar_key");
    cbn [andb fst snd app combine In];
    destruct Hc as [-> | ->]; cbn [lookup String.eqb Ascii.eqb Bool.eqb];
    intros H; try reflexivity;
    repeat (destruct H as [H|H]; [discriminate H|]); contradiction.
Qed.

Lemma default_display_name_witness :
  let plan := insert_plan [JString "email"; JString "name"] "ann@x.com" JUndefined "h" "k" in
  lookup "name" (combine (fst plan) (snd plan)) = JString "ann".
Proof.
  apply (proj2 (proj2 (default_display_name [JString "email"; JString "name"]
                         "ann@x.com" JUndefined "h" "k")) "name").
  - right. reflexivity.
  - simpl. right. left. reflexivity.
Defined.

(** *** The authorization header, segment by segment *)

(** X16. The token is the text between the first and the second space of the
    header: what follows a second space is ignored, and two spaces in a
    row after the scheme leave an empty token, which is answered 401
    with the invalid-format message whatever comes after. *)
Theorem authorization_segments (req : request) (scheme token tail : string)
    (next : request -> prog response) :
  no_space scheme -> no_space token ->
  (authorization req = Some (scheme ++ " " ++ token ++ " " ++ tail)%string ->
   token <> EmptyString ->
   exists k, verifyToken req next = JwtVerify token k)
  /\ (authorization req = Some (scheme ++ "  " ++ tail)%string ->
      verifyToken req next = Ret invalid_format).
Proof.
  intros Hs Ht. split.
  - intros Hh Hne.
    assert (Htok : token_of (scheme ++ " " ++ token ++ " " ++ tail) = Some token).
    { unfold token_of.
      change (scheme ++ " " ++ token ++ " " ++ tail)%string
        with (scheme ++ String " "%char (token ++ String " "%char tail))%string.
      rewrite (split_scheme _ _ Hs), (split_scheme _ _ Ht). reflexivity. }
    unfold verifyToken. rewrite Hh, Htok, (eqb_empty_false _ Hne).
    assert (H0 : ((scheme ++ " " ++ token ++ " " ++ tail) =? EmptyString) = false)
      by (destruct scheme; reflexivity).
    rewrite H0. eexists. reflexivity.
  - intros Hh.
    assert (Htok : token_of (scheme ++ "  " ++ tail) = Some EmptyString).
    { unfold token_of.
      change (scheme ++ "  " ++ tail)%string
        with (scheme ++ String " "%char (EmptyString ++ String " "%char tail))%string.
      rewrite (split_scheme _ _ Hs), (split_scheme EmptyString tail I). reflexivity. }
    unfold verifyToken. rewrite Hh, Htok.
    assert (H0 : ((scheme ++ "  " ++ tail) =? EmptyString) = false)
      by (destruct scheme; reflexivity).
    rewrite H0. reflexivity.
Qed.

Lemma authorization_segments_witness :
  (exists k,
     verifyToken (Request (Some "Bearer jwt.7 extra") JUndefined JUndefined) getMe
     = JwtVerify "jwt.7" k)
  /\ verifyToken (Request (Some "Bearer  jwt.7") JUndefined JUndefined) getMe
     = Ret invalid_format.
Proof.
  split.
  - destruct (authorization_segments
                (Request (Some "Bearer jwt.7 extra") JUndefined JUndefined)
                "Bearer" "jwt.7" "extra" getMe) as [H _].
    + simpl. repeat split; discriminate.
    + simpl. repeat split; discriminate.
    + apply H; [reflexivity | discriminate].
  - destruct (authorization_segments
                (Request (Some "Bearer  jwt.7") JUndefined JUndefined)
                "Bearer" "x" "jwt.7" getMe) as [_ H].
    + simpl. repeat split; discriminate.
    + simpl. repeat split; discriminate.
    + apply H. reflexivity.
Defined.

(** *** Whose rows [updateProfile] can touch *)

Lemma Forall2_same {A : Type} (P : A -> A -> Prop) l :
  (forall x, P x x) -> Forall2 P l l.
Proof. intros H. induction l; constructor; auto. Qed.

(** X17. For every request and every world, a users row that
    [updateProfile] changes is a row whose identifier column equals the
    principal's [userId]: no other account can be renamed, whatever the
    body says and whatever fails on the way. *)
Theorem updateProfile_only_own_rows (lib : library) (w : world) (req : request) :
  Forall2 (fun r r' =>
             r' = r
             \/ sql_eq (lookup (id_column w) r) (get (user req) "userId") = true)
          (users w) (users (snd (run lib (updateProfile req) w))).
Proof.
  assert (Hsame : forall w', users w' = users w ->
            Forall2 (fun r r' =>
                       r' = r
                       \/ sql_eq (lookup (id_column w) r) (get (user req) "userId") = true)
                    (users w) (users w')).
  { intros w' ->. apply Forall2_same. intros x. now left. }
  unfold updateProfile.
  destruct (negb (truthy (get (user req) "userId"))); [apply Hsame; reflexivity|].
  destruct (negb _ || negb _); [apply Hsame; reflexivity|].
  unfold with_client. cbn [run].
  destruct (conn_error w); [apply Hsame; reflexivity|].
  rewrite run_getUserIdColumn.
  unfold and_then at 1. cbn [bind run query_ pg_query].
  destruct (column_names (catalog (id_cached w) _)) as [|c0 cols];
    [apply Hsame, id_cached_users|].
  unfold update_plan.
  destruct (set_has (c0 :: cols) "full_name"); destruct (set_has (c0 :: cols) "name");
    cbn [app length Nat.add]; unfold and_then; cbn [bind run query_ pg_query];
    try (apply Hsame, id_cached_users).
  all: destruct (missing_column (id_cached w) _); cbn [bind run];
    [apply Hsame, id_cached_users|].
  all: cbn [snd users with_users]; rewrite id_cached_users.
  all: apply Forall2_map_self; intros r.
  all: unfold param; cbn [nth Nat.sub].
  all: destruct (sql_eq (lookup (id_column w) r) (get (user req) "userId"));
    [now right | now left].
Qed.
